(** * talogo: log writer, day splitter and hierarchy aggregator

  A shallow embedding of the two sub-commands of talogo:

  - [log] ([cmd/log.go], [model.logToCSV]): splits a tracked interval at
    local midnights and appends one CSV record per calendar day;
  - [summary] ([generateSummary], [printSubtasks]): folds the records of a
    log into a per-day forest of [TaskNode]s and prints it.

  The Go standard library is not part of the repository.  The fragment of
  package [time] that the code calls is modelled in [Module GoTime], with
  instants as integer nanoseconds and locations as fixed offsets;
  [strconv.Atoi] and the 64-bit arithmetic of [time.Duration] are modelled
  in [Module GoInt].  The CSV codec ([encoding/csv]) is abstracted: a file
  is the list of its records, a record the list of its fields. *)

From stdpp Require Import gmap strings list sorting pretty.
From Stdlib Require Import Ascii ZArith Lia.

Local Open Scope Z_scope.

(* ===================================================================== *)
(** ** 64-bit integers and [strconv.Atoi] *)
(* ===================================================================== *)

Module GoInt.

(** Two's complement wrap-around of a signed 64-bit integer; Go's [int]
    (on 64-bit platforms), [int64] and [time.Duration] all behave so. *)
Definition wrap64 (x : Z) : Z := (x + 2 ^ 63) mod 2 ^ 64 - 2 ^ 63.

Definition add64 (x y : Z) : Z := wrap64 (x + y).
Definition mul64 (x y : Z) : Z := wrap64 (x * y).

Definition isDigit (c : ascii) : bool :=
  let n := N_of_ascii c in ((48 <=? n) && (n <=? 57))%N.

Definition digitVal (c : ascii) : Z := Z.of_N (N_of_ascii c) - 48.

(** Value of a non-empty run of decimal digits; [None] on any other
    character. *)
Fixpoint digitsVal (acc : Z) (s : string) : option Z :=
  match s with
  | EmptyString => Some acc
  | String c s' =>
      if isDigit c then digitsVal (10 * acc + digitVal c) s' else None
  end.

Definition unsignedVal (s : string) : option Z :=
  match s with
  | EmptyString => None
  | _ => digitsVal 0 s
  end.

(** [strconv.Atoi]: an optional sign, at least one decimal digit, nothing
    else, and a value that fits in an [int]. *)
Definition Atoi (s : string) : option Z :=
  v ← match s with
      | String "+" s' => unsignedVal s'
      | String "-" s' => Z.opp <$> unsignedVal s'
      | _ => unsignedVal s
      end;
  if (- 2 ^ 63 <=? v) && (v <=? 2 ^ 63 - 1) then Some v else None.

End GoInt.

(* ===================================================================== *)
(** ** The fragment of Go's package [time] used by the code *)
(* ===================================================================== *)

Module GoTime.
Import GoInt.

(** [time.Duration] counts nanoseconds. *)
Definition Nanosecond : Z := 1.
Definition Second : Z := 1000000000.

(** A [time.Time] is an instant, here the count of nanoseconds since the
    Unix epoch, together with a location.  The log stores fixed-offset
    timestamps, and a location is modelled as its offset in seconds east
    of UTC.  The bounds of Go's representation (hundreds of billions of
    years) are not modelled. *)
Record Time : Type := mkTime { unixNano : Z; zoneOffset : Z }.

Definition Location (t : Time) : Z := zoneOffset t.

Definition Add (t : Time) (d : Z) : Time :=
  mkTime (unixNano t + d) (zoneOffset t).
Definition After (t u : Time) : bool := unixNano u <? unixNano t.
Definition Equal (t u : Time) : bool := unixNano t =? unixNano u.

(** *** Proleptic Gregorian calendar *)

Definition isLeap (year : Z) : bool :=
  (year mod 4 =? 0) && (negb (year mod 100 =? 0) || (year mod 400 =? 0)).

Definition daysIn (month year : Z) : Z :=
  if month =? 2 then (if isLeap year then 29 else 28)
  else if (month =? 4) || (month =? 6) || (month =? 9) || (month =? 11)
       then 30 else 31.

(** Day number inside a 400-year era whose years start on 1 March, from
    the year of the era, the month and the day of the month. *)
Definition doeOfCivil (yoe month day : Z) : Z :=
  let mp := if 2 <? month then month - 3 else month + 9 in
  yoe * 365 + yoe / 4 - yoe / 100 + (153 * mp + 2) / 5 + day - 1.

(** Days since 1970-01-01 of a civil date; linear in [day], so a day past
    the end of the month rolls over into the next one. *)
Definition daysFromCivil (year month day : Z) : Z :=
  let y := if month <=? 2 then year - 1 else year in
  let era := y / 400 in
  era * 146097 + doeOfCivil (y - era * 400) month day - 719468.

Definition civilOfDoe (doe : Z) : Z * Z * Z :=
  let yoe := (doe - doe / 1460 + doe / 36524 - doe / 146096) / 365 in
  let doy := doe - (365 * yoe + yoe / 4 - yoe / 100) in
  let mp := (5 * doy + 2) / 153 in
  let d := doy - (153 * mp + 2) / 5 + 1 in
  let m := if mp <? 10 then mp + 3 else mp - 9 in
  (yoe, m, d).

Definition civilFromDays (z : Z) : Z * Z * Z :=
  let z' := z + 719468 in
  let era := z' / 146097 in
  let '(yoe, m, d) := civilOfDoe (z' - era * 146097) in
  (yoe + era * 400 + (if m <=? 2 then 1 else 0), m, d).

(** Seconds since the epoch on the wall clock of the time's location. *)
Definition localSec (t : Time) : Z := unixNano t / Second + zoneOffset t.

(** [t.Date()]: year, month and day in the time's location. *)
Definition Time_Date (t : Time) : Z * Z * Z :=
  civilFromDays (localSec t / 86400).

(** [t.Clock()]: hour, minute and second in the time's location. *)
Definition Clock (t : Time) : Z * Z * Z :=
  let s := localSec t mod 86400 in (s / 3600, s mod 3600 / 60, s mod 60).

(** [time.Date(year, month, day, hour, min, sec, nsec, loc)].  Values out
    of their usual range are normalised: the month carries into the year,
    and the instant is linear in every smaller field. *)
Definition Date (year month day hour min sec nsec : Z) (loc : Z) : Time :=
  let m0 := month - 1 in
  let days := daysFromCivil (year + m0 / 12) (m0 mod 12 + 1) day in
  mkTime ((days * 86400 + hour * 3600 + min * 60 + sec - loc) * Second
          + nsec) loc.

(** *** Formatting *)

Definition digitChar (n : Z) : ascii := ascii_of_N (Z.to_N (48 + n)).

(** The [width] low-order decimal digits of [u], in front of [acc]. *)
Fixpoint padDigits (width : nat) (u : Z) (acc : string) : string :=
  match width with
  | O => acc
  | S w => padDigits w (u / 10) (String (digitChar (u mod 10)) acc)
  end.

Fixpoint numDigitsFuel (fuel : nat) (u : Z) : nat :=
  match fuel with
  | O => 1%nat
  | S f => if u <? 10 then 1%nat else S (numDigitsFuel f (u / 10))
  end.
Definition numDigits (u : Z) : nat :=
  numDigitsFuel (Z.to_nat (Z.log2 u)) u.

(** [appendInt]: decimal with a leading minus sign when negative,
    zero-padded to at least [width] digits. *)
Definition appendInt (x : Z) (width : nat) : string :=
  let u := Z.abs x in
  (if x <? 0 then "-" else "")
    +:+ padDigits (Nat.max width (numDigits u)) u "".

(** Layout element [Z07:00]. *)
Definition formatZone (offset : Z) : string :=
  let zone := Z.quot offset 60 in
  if zone =? 0 then "Z"
  else (if zone <? 0 then "-" else "+")
         +:+ appendInt (Z.abs zone / 60) 2 +:+ ":"
         +:+ appendInt (Z.abs zone mod 60) 2.

(** [t.Format("2006-01-02")]. *)
Definition Format_date (t : Time) : string :=
  let '(year, month, day) := Time_Date t in
  appendInt year 4 +:+ "-" +:+ appendInt month 2 +:+ "-"
    +:+ appendInt day 2.

(** [t.Format(time.RFC3339)], layout [2006-01-02T15:04:05Z07:00]: the
    layout has no fractional seconds, so none are printed. *)
Definition Format_RFC3339 (t : Time) : string :=
  let '(hour, min, sec) := Clock t in
  Format_date t +:+ "T" +:+ appendInt hour 2 +:+ ":" +:+ appendInt min 2
    +:+ ":" +:+ appendInt sec 2 +:+ formatZone (zoneOffset t).

(** *** Parsing *)

Definition getnum2 (s : string) : option (Z * string) :=
  match s with
  | String a (String b rest) =>
      if isDigit a && isDigit b
      then Some (10 * digitVal a + digitVal b, rest) else None
  | _ => None
  end.

Definition getnum4 (s : string) : option (Z * string) :=
  '(hi, s') ← getnum2 s; '(lo, rest) ← getnum2 s'; Some (100 * hi + lo, rest).

Definition skip (c : ascii) (s : string) : option string :=
  match s with
  | String a rest => if Ascii.eqb a c then Some rest else None
  | EmptyString => None
  end.

(** Longest prefix of digits, and what follows it. *)
Fixpoint spanDigits (s : string) : string * string :=
  match s with
  | String c s' =>
      if isDigit c
      then let '(ds, rest) := spanDigits s' in (String c ds, rest)
      else (EmptyString, s)
  | EmptyString => (EmptyString, EmptyString)
  end.

Fixpoint takeStr (n : nat) (s : string) : string :=
  match n, s with
  | S n', String c s' => String c (takeStr n' s')
  | _, _ => EmptyString
  end.

(** A fractional second in the value is accepted although the layout has
    none: a period or comma followed by digits, of which nine count. *)
Definition parseNanoseconds (s : string) : Z * string :=
  match s with
  | String c (String d _ as ds) =>
      if (Ascii.eqb c "." || Ascii.eqb c ",") && isDigit d
      then let '(frac, rest) := spanDigits ds in
           let frac9 := takeStr 9 frac in
           (default 0 (digitsVal 0 frac9) * 10 ^ Z.of_nat (9 - String.length frac9),
            rest)
      else (0, s)
  | _ => (0, s)
  end.

Definition parseZone (s : string) : option (Z * string) :=
  match s with
  | String c rest =>
      if Ascii.eqb c "Z" then Some (0, rest)
      else
        sign ← (if Ascii.eqb c "+" then Some 1
                else if Ascii.eqb c "-" then Some (-1) else None);
        '(hr, rest) ← getnum2 rest;
        rest ← skip ":" rest;
        '(mm, rest) ← getnum2 rest;
        if (hr <=? 24) && (mm <=? 60)
        then Some (sign * ((hr * 60 + mm) * 60), rest) else None
  | EmptyString => None
  end.

(** [time.Parse(time.RFC3339, value)]; [None] stands for a non-nil error. *)
Definition Parse_RFC3339 (value : string) : option Time :=
  '(year, v) ← getnum4 value;
  v ← skip "-" v;
  '(month, v) ← getnum2 v;
  v ← skip "-" v;
  '(day, v) ← getnum2 v;
  v ← skip "T" v;
  '(hour, v) ← getnum2 v;
  v ← skip ":" v;
  '(min, v) ← getnum2 v;
  v ← skip ":" v;
  '(sec, v) ← getnum2 v;
  let '(nsec, v) := parseNanoseconds v in
  '(offset, v) ← parseZone v;
  if (String.eqb v "") && (1 <=? month) && (month <=? 12)
     && (hour <? 24) && (min <? 60) && (sec <? 60)
     && (1 <=? day) && (day <=? daysIn month year)
  then Some (mkTime (unixNano (Date year month day hour min sec nsec 0)
                     - offset * Second) offset)
  else None.

End GoTime.

(* ===================================================================== *)
(** ** [cmd/log.go]: the log writer and its day splitter *)
(* ===================================================================== *)

Module Log.
Import GoTime.

Record model : Type := mkModel {
  logFile : string;
  titles : list string;
  startTime : Time;
  elapsed : Z;
  running : bool;
  quitting : bool
}.

(** The header written to an empty file: the two fixed columns followed by
    [title1] .. [titleN]. *)
Definition header (maxTitles : Z) : list string :=
  ["start_time"; "end_time"]
    ++ ((λ i, "title" +:+ pretty i) <$> seqZ 1 maxTitles).

(** [maxTitles]: the length of the title chain, raised to the number of
    title columns of the existing header when that is larger. *)
Definition maxTitlesOf (titles : list string) (file : list (list string)) : Z :=
  let maxTitles := Z.of_nat (length titles) in
  match file with
  | [] => maxTitles
  | headers :: _ =>
      let titleCount := Z.of_nat (length headers) - 2 in
      if maxTitles <? titleCount then titleCount else maxTitles
  end.

(** One record: both timestamps, the titles, then empty strings while the
    record has fewer than [2 + maxTitles] fields. *)
Definition mkRecord (titles : list string) (maxTitles : Z)
    (seg : Time * Time) : list string :=
  let record := [Format_RFC3339 seg.1; Format_RFC3339 seg.2] ++ titles in
  record ++ replicate (Z.to_nat (2 + maxTitles - Z.of_nat (length record))) "".

(** The [for] loop of [logToCSV], one iteration per unit of [fuel]; it
    yields the pairs [(currentStart, currentEnd)] in the order in which
    their records are written.  [None]: the fuel ran out before the loop
    reached its [break]. *)
Fixpoint splitDays (fuel : nat) (currentStart endTime : Time)
    : option (list (Time * Time)) :=
  match fuel with
  | O => None
  | S fuel' =>
      let '(year, month, day) := Time_Date currentStart in
      let nextDay :=
        Date year month (day + 1) 0 0 0 0 (Location currentStart) in
      let endOfDay := Add nextDay (- Nanosecond) in
      let currentEnd := if After endOfDay endTime then endTime else endOfDay in
      if Equal currentEnd endTime
      then Some [(currentStart, currentEnd)]
      else rest ← splitDays fuel' (Add endOfDay Nanosecond) endTime;
           Some ((currentStart, currentEnd) :: rest)
  end.

(** Number of the calendar day of [t] on the wall clock of offset [loc]. *)
Definition dayNumber (loc : Z) (t : Time) : Z :=
  (unixNano t / Second + loc) / 86400.

(** Iterations that the loop needs at most: one per calendar day touched. *)
Definition splitFuel (startTime endTime : Time) : nat :=
  S (Z.to_nat (dayNumber (zoneOffset startTime) endTime
               - dayNumber (zoneOffset startTime) startTime)).

(** [logToCSV] on the records [file] of the log ([[]] for a new or empty
    file, which the append mode creates); the result is the file after the
    deferred flush.  Failures of the operating system are not modelled. *)
Definition logToCSV (m : model) (file : list (list string))
    : option (list (list string)) :=
  let startTime := startTime m in
  let endTime := Add (Log.startTime m) (elapsed m) in
  let maxTitles := maxTitlesOf (titles m) file in
  let written := match file with [] => [header maxTitles] | _ => [] end in
  segments ← splitDays (splitFuel startTime endTime) startTime endTime;
  Some (file ++ written ++ (mkRecord (titles m) maxTitles <$> segments)).

End Log.

(* ===================================================================== *)
(** ** [summary]: the aggregator and the report *)
(* ===================================================================== *)

Module Summary.
Import GoInt GoTime.

(** [TaskNode]; the pointers of [map[string]*TaskNode] are owned by the
    one map that holds them, so a node is stored by value. *)
#[warnings="-register-all"]
Inductive TaskNode : Type := mkTaskNode {
  Name : string;
  Duration : Z;
  Children : gmap string TaskNode;
  TotalTime : Z
}.

#[global] Instance TaskNode_inhabited : Inhabited TaskNode :=
  populate (mkTaskNode "" 0 ∅ 0).

Definition nl : string := String (ascii_of_N 10) "".

(** The inner loop [for j := 3; j < len(record); j++] on the fields from
    index 3 on: it stops at the first empty field, creates the node when
    the name is new, adds [duration] to both counters and descends. *)
Fixpoint addTitles (fields : list string) (duration : Z)
    (current : gmap string TaskNode) : gmap string TaskNode :=
  match fields with
  | [] => current
  | taskName :: rest =>
      if decide (taskName = "") then current
      else
        let node := default (mkTaskNode taskName 0 ∅ 0) (current !! taskName) in
        <[taskName :=
            mkTaskNode (Name node)
              (add64 (Duration node) duration)
              (addTitles rest duration (Children node))
              (add64 (TotalTime node) duration)]> current
  end.

(** What the record loop carries: the forest per date, and the lines
    written to standard error so far. *)
Record state : Type := mkState {
  dailyTasks : gmap string (gmap string TaskNode);
  stderr : list string
}.

Definition warn (msg : string) (st : state) : state :=
  mkState (dailyTasks st) (stderr st ++ [msg]).

(** Body of [for i, record := range records]. *)
Definition processRecord (i : nat) (record : list string) (st : state)
    : state :=
  if decide (i = 0%nat) then st
  else if decide (length record < 3)%nat then
    warn ("Skipping malformed record on line " +:+ pretty (S i)
            +:+ ": too few fields (" +:+ pretty (length record) +:+ ")" +:+ nl) st
  else
    match Parse_RFC3339 (record !!! 0%nat) with
    | None =>
        warn ("Skipping record on line " +:+ pretty (S i)
                +:+ ": invalid start time (" +:+ record !!! 0%nat +:+ ")" +:+ nl) st
    | Some startTime =>
        match Atoi (record !!! 2%nat) with
        | None =>
            warn ("Skipping record on line " +:+ pretty (S i)
                    +:+ ": invalid duration (" +:+ record !!! 2%nat +:+ ")" +:+ nl) st
        | Some durationSeconds =>
            let duration := mul64 durationSeconds Second in
            let dateStr := Format_date startTime in
            let daily :=
              match dailyTasks st !! dateStr with
              | None => <[dateStr := ∅]> (dailyTasks st)
              | Some _ => dailyTasks st
              end in
            let current := daily !!! dateStr in
            mkState
              (<[dateStr := addTitles (drop 3 record) duration current]> daily)
              (stderr st)
        end
    end.

Fixpoint recordLoop (i : nat) (records : list (list string)) (st : state)
    : state :=
  match records with
  | [] => st
  | record :: rest => recordLoop (S i) rest (processRecord i record st)
  end.

(** The forest and the diagnostics that [generateSummary] builds. *)
Definition aggregate (records : list (list string)) : state :=
  recordLoop 0 records (mkState ∅ []).

(** Keys of a map collected by [range], whose order Go leaves unspecified,
    and then sorted with [sort.Strings]. *)
Definition sortedKeys {A} (m : gmap string A) : list string :=
  merge_sort String.le (map_to_list m).*1.

(** 64-bit floating point is not modelled: the report is parametric in the
    conversion [Duration.Hours], the addition of [float64] and the
    formatting verb [%.2f]. *)
Class Float64 : Type := {
  float64 : Type;
  Hours : Z → float64;
  fadd : float64 → float64 → float64;
  fzero : float64;
  fmt2f : float64 → string
}.

Section Report.
Context `{Float64}.

Definition concatStr (l : list string) : string := foldr String.append "" l.

Definition spaces (n : nat) : string :=
  concatStr (replicate n " ").

(** Lines of [printSubtasks(tasks, indent)], given for every task the
    lines [sub] that the recursive call on its children prints. *)
Definition printLevel (indent : nat) (tasks : gmap string TaskNode)
    (sub : gmap string string) : string :=
  concatStr
    ((λ taskName,
        let task := tasks !!! taskName in
        spaces indent +:+ taskName +:+ ": "
          +:+ fmt2f (Hours (Duration task)) +:+ " hs" +:+ nl
          +:+ sub !!! taskName) <$> sortedKeys tasks).

(** [printSubtasks(task.Children, indent)]. *)
Fixpoint printChildren (indent : nat) (task : TaskNode) : string :=
  printLevel indent (Children task)
    (printChildren (indent + 2) <$> Children task).

Definition printSubtasks (tasks : gmap string TaskNode) (indent : nat)
    : string :=
  printLevel indent tasks (printChildren (indent + 2) <$> tasks).

Definition printDay (date : string) (tasks : gmap string TaskNode)
    : string :=
  let taskNames := sortedKeys tasks in
  let totalDayHours :=
    foldl (λ total taskName,
             fadd total (Hours (TotalTime (tasks !!! taskName))))
          fzero taskNames in
  "Date: " +:+ date +:+ nl
    +:+ "Total: " +:+ fmt2f totalDayHours +:+ " hs" +:+ nl
    +:+ concatStr
          ((λ taskName,
              let task := tasks !!! taskName in
              "  " +:+ taskName +:+ ": "
                +:+ fmt2f (Hours (TotalTime task)) +:+ " hs" +:+ nl
                +:+ printSubtasks (Children task) 4) <$> taskNames)
    +:+ nl.

Definition printReport (daily : gmap string (gmap string TaskNode))
    : string :=
  concatStr ((λ date, printDay date (daily !!! date)) <$> sortedKeys daily).

(** [generateSummary] on the records read from the log: what it prints
    on standard output and on standard error. *)
Definition generateSummary (records : list (list string))
    : string * list string :=
  if decide (length records ≤ 1)%nat
  then ("No data in CSV file (only header or empty)" +:+ nl, [])
  else
    let st := aggregate records in
    (printReport (dailyTasks st), stderr st).
End Report.

(** The node reached from a forest by a chain of names. *)
Fixpoint nodeAt (path : list string) (tasks : gmap string TaskNode)
    : option TaskNode :=
  match path with
  | [] => None
  | name :: rest =>
      node ← tasks !! name;
      match rest with
      | [] => Some node
      | _ => nodeAt rest (Children node)
      end
  end.

End Summary.

(* ===================================================================== *)
(** ** Vocabulary of the statements *)
(* ===================================================================== *)

Module Props.
Import GoTime Log Summary.

(** [t] is a midnight on the wall clock of its location. *)
Definition localMidnight (t : Time) : Prop :=
  Clock t = (0, 0, 0) ∧ unixNano t mod Second = 0.


(** Each segment but the first starts one nanosecond, the resolution of
    [time.Time], after its predecessor ends, and it starts at a local
    midnight. *)
Fixpoint abutting (segs : list (Time * Time)) : Prop :=
  match segs with
  | seg :: (next :: _) as rest =>
      unixNano next.1 = unixNano seg.2 + Nanosecond
      ∧ localMidnight next.1 ∧ abutting rest
  | _ => True
  end.

(** A segment runs forward, both its ends carry the location [loc], and
    they fall on the same calendar date there. *)
Definition withinDay (loc : Z) (seg : Time * Time) : Prop :=
  unixNano seg.1 ≤ unixNano seg.2
  ∧ zoneOffset seg.1 = loc ∧ zoneOffset seg.2 = loc
  ∧ Time_Date seg.1 = Time_Date seg.2.

(** The first instant of the calendar day after that of [t], in the
    location of [t]. *)
Definition startOfNextDay (t : Time) : Time :=
  mkTime (((localSec t / 86400 + 1) * 86400 - zoneOffset t) * Second)
         (zoneOffset t).

(** Two and four decimal digits, and the text of a zone offset of whole
    minutes: what [appendInt] and [formatZone] print in their usual
    ranges. *)
Definition twoDigits (x : Z) : string :=
  String (digitChar (x / 10)) (String (digitChar (x mod 10)) "").

Definition fourDigits (x : Z) : string :=
  twoDigits (x / 100) +:+ twoDigits (x mod 100).

Definition zoneText (off : Z) : string :=
  if off =? 0 then "Z"
  else String (if off <? 0 then "-"%char else "+"%char)
         (twoDigits (Z.abs off / 3600) +:+ ":"
            +:+ twoDigits (Z.abs off / 60 mod 60)).

(** The number of title columns that the header of a log declares. *)
Definition headerTitleCount (file : list (list string)) : Z :=
  match file with
  | headers :: _ => Z.of_nat (length headers) - 2
  | [] => 0
  end.

(** The rows that the record loop refuses. *)
Definition skipped (record : list string) : Prop :=
  (length record < 3)%nat
  ∨ Parse_RFC3339 (record !!! 0%nat) = None
  ∨ GoInt.Atoi (record !!! 2%nat) = None.

#[global] Instance skipped_dec record : Decision (skipped record).
Proof. unfold skipped. apply _. Defined.

(** What one data row does to the forests: nothing when it is refused. *)
Definition addRecord (record : list string)
    (daily : gmap string (gmap string TaskNode))
    : gmap string (gmap string TaskNode) :=
  if decide (length record < 3)%nat then daily
  else
    match Parse_RFC3339 (record !!! 0%nat), GoInt.Atoi (record !!! 2%nat) with
    | Some startTime, Some durationSeconds =>
        <[Format_date startTime :=
            addTitles (drop 3 record) (GoInt.mul64 durationSeconds Second)
              (default ∅ (daily !! Format_date startTime))]> daily
    | _, _ => daily
    end.

(** The title chain of a row: its title fields up to the first empty
    one. *)
Fixpoint chainOf (fields : list string) : list string :=
  match fields with
  | [] => []
  | taskName :: rest =>
      if decide (taskName = "") then [] else taskName :: chainOf rest
  end.

(** The counters of the node at a path, zero where there is no node. *)
Definition durationAt (path : list string) (tasks : gmap string TaskNode) : Z :=
  from_option Duration 0 (nodeAt path tasks).
Definition totalAt (path : list string) (tasks : gmap string TaskNode) : Z :=
  from_option TotalTime 0 (nodeAt path tasks).

(** The log of the additivity example: on one day, one hour on the chain
    A, B and two hours on the chain A, C, in the layout that the
    aggregator reads. *)
Definition exampleDay : list (list string) :=
  [["start_time"; "end_time"; "duration_seconds"; "title1"; "title2"];
   ["2024-01-01T09:00:00Z"; "2024-01-01T10:00:00Z"; "3600"; "A"; "B"];
   ["2024-01-01T10:00:00Z"; "2024-01-01T12:00:00Z"; "7200"; "A"; "C"]].

(** Every node of the forest has its two counters equal. *)
Definition balanced (tasks : gmap string TaskNode) : Prop :=
  ∀ path node, nodeAt path tasks = Some node → Duration node = TotalTime node.

(** An instance on which the report can be run: hours kept as the exact
    count of nanoseconds and printed as an integer.  It is not Go's
    [float64]; the statements about the report hold for every instance. *)
Definition exactNanos : Float64 :=
  {| float64 := Z; Hours := λ d, d; fadd := Z.add; fzero := 0;
     fmt2f := pretty |}.

End Props.

(* ===================================================================== *)
(** ** The earlier writer with a duration column ([src/unnamed/part_001]) *)
(* ===================================================================== *)

Module MainLog.
Import GoTime.

Record model : Type := mkModel {
  titles : list string;
  startTime : Time;
  elapsed : Z;
  running : bool;
  quitting : bool
}.

(** The header written to an empty file: three fixed columns, then
    [title1] .. [titleN]. *)
Definition header (maxTitles : Z) : list string :=
  ["start_time"; "end_time"; "duration_seconds"]
    ++ ((λ i, "title" +:+ pretty i) <$> seqZ 1 maxTitles).

Definition maxTitlesOf (titles : list string) (file : list (list string)) : Z :=
  let maxTitles := Z.of_nat (length titles) in
  match file with
  | [] => maxTitles
  | headers :: _ =>
      let titleCount := Z.of_nat (length headers) - 3 in
      if maxTitles <? titleCount then titleCount else maxTitles
  end.

(** The one record of a session: both timestamps, the duration in decimal,
    the titles, then empty strings while the record has fewer than
    [3 + maxTitles] fields. *)
Definition mkRecord (m : model) (duration maxTitles : Z) : list string :=
  let endTime := Add (startTime m) (elapsed m) in
  let record :=
    [Format_RFC3339 (startTime m); Format_RFC3339 endTime; pretty duration]
      ++ titles m in
  record ++ replicate (Z.to_nat (3 + maxTitles - Z.of_nat (length record))) "".

(** [logToCSV] on the records of [talogo.csv].  [seconds] stands for
    [int(d.Seconds())], a conversion through [float64] that is not
    modelled.  Failures of the operating system are not modelled. *)
Definition logToCSV (seconds : Z → Z) (m : model) (file : list (list string))
    : list (list string) :=
  let duration := seconds (elapsed m) in
  let maxTitles := maxTitlesOf (titles m) file in
  let written := match file with [] => [header maxTitles] | _ => [] end in
  file ++ written ++ [mkRecord m duration maxTitles].

End MainLog.

(* ===================================================================== *)
(** ** [cmd/log.go]: the update function of the timer *)
(* ===================================================================== *)

Module LogUI.
Import GoTime Log.

(** The messages that [Update] tells apart: a key, which is Ctrl+C or not,
    a tick, anything else. *)
Inductive Msg : Type := KeyMsg (ctrlC : bool) | TickMsg | OtherMsg.

(** The commands that [Update] returns: [nil], [tickCmd()], [tea.Quit]. *)
Inductive Cmd : Type := CmdNil | CmdTick | CmdQuit.

(** [m.Update(msg)] with the log it may append to.  [since] is what
    [time.Since(m.startTime)] reads during the call.  An error of
    [logToCSV] is printed and the log is as it was. *)
Definition Update (since : Z) (msg : Msg) (m : model)
    (file : list (list string)) : model * list (list string) * Cmd :=
  match msg with
  | KeyMsg true =>
      let m := mkModel (logFile m) (titles m) (startTime m) (elapsed m)
                 false true in
      (m, default file (logToCSV m file), CmdQuit)
  | TickMsg =>
      if running m
      then (mkModel (logFile m) (titles m) (startTime m) since
              (running m) (quitting m), file, CmdTick)
      else (m, file, CmdNil)
  | _ => (m, file, CmdNil)
  end.

(** The messages of a run handled one after the other, each with the
    reading of the clock at its call. *)
Fixpoint run (inputs : list (Z * Msg)) (m : model) (file : list (list string))
    : model * list (list string) :=
  match inputs with
  | [] => (m, file)
  | (since, msg) :: rest =>
      let '(m', file', _) := Update since msg m file in run rest m' file'
  end.

End LogUI.

(* ===================================================================== *)
(** ** Further vocabulary *)
(* ===================================================================== *)

Module MoreProps.
Import GoInt GoTime Summary Props.



(** The date under which the aggregator files a row, and the duration that
    it takes from the row. *)
Definition rowDate (record : list string) : option string :=
  Format_date <$> Parse_RFC3339 (record !!! 0%nat).

Definition rowNanos (record : list string) : Z :=
  from_option (λ secs, mul64 secs Second) 0 (Atoi (record !!! 2%nat)).

(** The row is aggregated under [date]. *)
Definition filedUnder (date : string) (record : list string) : Prop :=
  ¬ skipped record ∧ rowDate record = Some date.

#[global] Instance filedUnder_dec date record : Decision (filedUnder date record).
Proof. unfold filedUnder. apply _. Defined.

(** The row is aggregated under [date] and its title chain passes through
    [path]. *)
Definition through (date : string) (path : list string)
    (record : list string) : Prop :=
  filedUnder date record ∧ path `prefix_of` chainOf (drop 3 record).

#[global] Instance through_dec date path record :
  Decision (through date path record).
Proof. unfold through. apply _. Defined.

(** The durations of the rows through [path] on [date], added up. *)
Definition nanosThrough (date : string) (path : list string)
    (rows : list (list string)) : Z :=
  foldr Z.add 0 (rowNanos <$> filter (through date path) rows).

(** Every node of the forest carries the name under which it is stored. *)
Definition named (tasks : gmap string TaskNode) : Prop :=
  ∀ path node, nodeAt path tasks = Some node → last path = Some (Name node).

(** The forest of a date, empty when the date has none. *)
Definition forestOf (date : string)
    (daily : gmap string (gmap string TaskNode)) : gmap string TaskNode :=
  default ∅ (daily !! date).

End MoreProps.

(* ===================================================================== *)
(** * Proofs *)
(* ===================================================================== *)

Ltac lia_div := Z.div_mod_to_equations; lia.

(** ** The calendar *)

Section Calendar.
Import GoTime.

Lemma civilOfDoe_range doe yoe m d :
  0 ≤ doe < 146097 → civilOfDoe doe = (yoe, m, d) →
  0 ≤ yoe < 400 ∧ 1 ≤ m ≤ 12 ∧ 1 ≤ d ≤ 31 ∧ doeOfCivil yoe m d = doe.
Proof.
  unfold civilOfDoe, doeOfCivil. intros Hdoe [= <- <- <-].
  set (yoe := (doe - doe / 1460 + doe / 36524 - doe / 146096) / 365).
  set (doy := doe - (365 * yoe + yoe / 4 - yoe / 100)).
  assert (Hy : 0 ≤ yoe < 400 ∧ 0 ≤ doy ≤ 365) by (subst doy yoe; lia_div).
  set (mp := (5 * doy + 2) / 153).
  assert (Hmp : 0 ≤ mp ≤ 11) by (subst mp; lia_div).
  repeat case_match; repeat split; try lia; try (subst mp; lia_div).
  all: subst doy; try lia.
Qed.

Lemma civilOfDoe_daysIn doe yoe m d era :
  0 ≤ doe < 146097 → civilOfDoe doe = (yoe, m, d) →
  d ≤ daysIn m (yoe + era * 400 + (if m <=? 2 then 1 else 0)).
Proof.
  unfold civilOfDoe. intros Hdoe [= <- <- <-].
  set (yoe := (doe - doe / 1460 + doe / 36524 - doe / 146096) / 365).
  set (doy := doe - (365 * yoe + yoe / 4 - yoe / 100)).
  assert (Hy : 0 ≤ yoe < 400 ∧ 0 ≤ doy ≤ 365) by (subst doy yoe; lia_div).
  assert (Hleap : doy = 365 →
            (yoe + 1) mod 4 = 0 ∧ ((yoe + 1) mod 100 ≠ 0 ∨ yoe = 399))
    by (subst doy yoe; lia_div).
  clearbody doy yoe. clear Hdoe.
  set (mp := (5 * doy + 2) / 153).
  assert (Hmp : 0 ≤ mp ≤ 11 ∧ 153 * mp ≤ 5 * doy + 2 < 153 * mp + 153)
    by (subst mp; lia_div).
  clearbody mp.
  assert (Hcases : mp = 0 ∨ mp = 1 ∨ mp = 2 ∨ mp = 3 ∨ mp = 4 ∨ mp = 5
            ∨ mp = 6 ∨ mp = 7 ∨ mp = 8 ∨ mp = 9 ∨ mp = 10 ∨ mp = 11) by lia.
  unfold daysIn, isLeap.
  destruct Hcases
    as [->|[->|[->|[->|[->|[->|[->|[->|[->|[->|[->| ->]]]]]]]]]]]; simpl.
  all: try lia_div.
  change ((153 * 11 + 2) / 5) with 337.
  destruct (decide (doy = 365)) as [H365|]; [|repeat case_match; lia].
  destruct (Hleap H365) as [H4 H100].
  replace ((yoe + era * 400 + 1) mod 4) with 0 by lia_div.
  simpl. destruct H100 as [H100| ->].
  - replace ((yoe + era * 400 + 1) mod 100 =? 0) with false; [simpl; lia|].
    symmetry. apply Z.eqb_neq. lia_div.
  - replace ((399 + era * 400 + 1) mod 400) with 0 by lia_div.
    rewrite orb_true_r. lia.
Qed.

(** A day number and its civil date determine each other. *)
Lemma civilFromDays_spec z y m d :
  civilFromDays z = (y, m, d) →
  1 ≤ m ≤ 12 ∧ 1 ≤ d ≤ daysIn m y ∧ daysFromCivil y m d = z.
Proof.
  unfold civilFromDays.
  set (era := (z + 719468) / 146097).
  set (doe := z + 719468 - era * 146097).
  assert (Hdoe : 0 ≤ doe < 146097) by (subst doe era; lia_div).
  destruct (civilOfDoe doe) as [[yoe m'] d'] eqn:Hc. intros [= <- <- <-].
  destruct (civilOfDoe_range _ _ _ _ Hdoe Hc) as (Hyoe & Hm & Hd & Hback).
  pose proof (civilOfDoe_daysIn _ _ _ _ era Hdoe Hc) as Hin.
  repeat split; try lia.
  unfold daysFromCivil.
  set (y := if m' <=? 2 then _ - 1 else _).
  assert (Hy : y = yoe + era * 400) by (subst y; case_match; lia).
  rewrite Hy.
  replace ((yoe + era * 400) / 400) with era by lia_div.
  replace (yoe + era * 400 - era * 400) with yoe by lia.
  rewrite Hback. subst doe. lia.
Qed.

Lemma daysFromCivil_succ y m d :
  daysFromCivil y m (d + 1) = daysFromCivil y m d + 1.
Proof. unfold daysFromCivil, doeOfCivil. lia. Qed.

Lemma Date_unixNano y m d hour min sec nsec loc :
  1 ≤ m ≤ 12 →
  unixNano (Date y m d hour min sec nsec loc)
  = (daysFromCivil y m d * 86400 + hour * 3600 + min * 60 + sec - loc)
      * Second + nsec.
Proof.
  intros Hm. unfold Date. simpl.
  replace ((m - 1) / 12) with 0 by lia_div.
  replace ((m - 1) mod 12 + 1) with m by lia_div.
  by rewrite Z.add_0_r.
Qed.

(** The [nextDay] of the splitter is the midnight that ends the day. *)
Lemma nextDay_unixNano t y m d :
  Time_Date t = (y, m, d) →
  Date y m (d + 1) 0 0 0 0 (Location t)
  = mkTime (((localSec t / 86400 + 1) * 86400 - zoneOffset t) * Second)
           (zoneOffset t).
Proof.
  unfold Time_Date. intros Hd.
  destruct (civilFromDays_spec _ _ _ _ Hd) as (Hm & _ & Hback).
  pose proof (Date_unixNano y m (d + 1) 0 0 0 0 (Location t) Hm) as Hu.
  rewrite daysFromCivil_succ, Hback in Hu.
  destruct (Date y m (d + 1) 0 0 0 0 (Location t)) as [u o] eqn:HD.
  assert (o = Location t) as -> by (unfold Date in HD; congruence).
  simpl in Hu. unfold Location in *. f_equal. lia.
Qed.
End Calendar.

(** ** The day splitter *)

Section DaySplitter.
Import GoTime Log Props.

Lemma Time_Date_dayNumber t u :
  zoneOffset u = zoneOffset t →
  Time_Date t = Time_Date u ↔
  dayNumber (zoneOffset t) t = dayNumber (zoneOffset t) u.
Proof.
  intros Hz. unfold Time_Date, dayNumber, localSec. rewrite Hz. split.
  - intros Heq.
    destruct (civilFromDays ((unixNano t / Second + zoneOffset t) / 86400))
      as [[y m] d] eqn:Ht.
    symmetry in Heq.
    apply civilFromDays_spec in Ht as (_ & _ & <-).
    by apply civilFromDays_spec in Heq as (_ & _ & <-).
  - by intros ->.
Qed.

(** One iteration of the loop, with [nextDay] and [endOfDay] resolved. *)
Lemma splitDays_step fuel s e :
  splitDays (S fuel) s e =
  let endOfDay := Add (startOfNextDay s) (- Nanosecond) in
  let currentEnd := if After endOfDay e then e else endOfDay in
  if Equal currentEnd e then Some [(s, currentEnd)]
  else rest ← splitDays fuel (startOfNextDay s) e;
       Some ((s, currentEnd) :: rest).
Proof.
  cbn [splitDays]. destruct (Time_Date s) as [[y m] d] eqn:Hd.
  rewrite (nextDay_unixNano s y m d Hd). fold (startOfNextDay s). cbv zeta.
  replace (Add (Add (startOfNextDay s) (- Nanosecond)) Nanosecond)
    with (startOfNextDay s); [done|].
  unfold startOfNextDay, Add, Nanosecond. simpl. f_equal. lia.
Qed.

Lemma startOfNextDay_after t :
  unixNano t < unixNano (startOfNextDay t)
  ∧ dayNumber (zoneOffset t) (startOfNextDay t)
    = dayNumber (zoneOffset t) t + 1
  ∧ dayNumber (zoneOffset t) (Add (startOfNextDay t) (- Nanosecond))
    = dayNumber (zoneOffset t) t.
Proof.
  unfold startOfNextDay, dayNumber, localSec, Add, Second, Nanosecond. simpl.
  lia_div.
Qed.

Lemma dayNumber_before_next t u :
  dayNumber (zoneOffset t) u ≤ dayNumber (zoneOffset t) t ↔
  unixNano u < unixNano (startOfNextDay t).
Proof.
  unfold startOfNextDay, dayNumber, localSec, Second. simpl. lia_div.
Qed.

Lemma startOfNextDay_midnight t : localMidnight (startOfNextDay t).
Proof.
  unfold localMidnight, Clock, startOfNextDay, localSec, Second. simpl.
  set (D := (unixNano t / 1000000000 + zoneOffset t) / 86400).
  replace (((D + 1) * 86400 - zoneOffset t) * 1000000000 / 1000000000
           + zoneOffset t) with ((D + 1) * 86400) by lia_div.
  replace (((D + 1) * 86400) mod 86400) with 0 by lia_div.
  split; [done | lia_div].
Qed.

(** The [endOfDay] of the splitter: the last nanosecond of the day. *)
Lemma endOfDay_fields s :
  unixNano (Add (startOfNextDay s) (- Nanosecond))
  = unixNano (startOfNextDay s) - 1
  ∧ zoneOffset (Add (startOfNextDay s) (- Nanosecond)) = zoneOffset s.
Proof. unfold Add, startOfNextDay, Nanosecond. simpl. split; [lia | done]. Qed.

(** The interval ends on the calendar day of [s], or before it: the loop
    writes one segment and breaks. *)
Lemma splitDays_last fuel s e :
  zoneOffset e = zoneOffset s →
  dayNumber (zoneOffset s) e ≤ dayNumber (zoneOffset s) s →
  splitDays (S fuel) s e = Some [(s, e)].
Proof.
  intros Hz Hday. rewrite splitDays_step. cbv zeta.
  apply dayNumber_before_next in Hday.
  destruct (endOfDay_fields s) as [Hn Ho].
  set (eod := Add (startOfNextDay s) (- Nanosecond)) in *.
  unfold After. destruct (Z.ltb_spec (unixNano e) (unixNano eod)).
  - unfold Equal. by rewrite Z.eqb_refl.
  - assert (Heq : unixNano eod = unixNano e) by lia.
    unfold Equal. rewrite Heq, Z.eqb_refl.
    destruct e, eod; simpl in *; congruence.
Qed.

(** The interval runs past the calendar day of [s]: the segment ends with
    the day and the loop goes on from the next midnight. *)
Lemma splitDays_more fuel s e :
  dayNumber (zoneOffset s) s < dayNumber (zoneOffset s) e →
  splitDays (S fuel) s e =
  rest ← splitDays fuel (startOfNextDay s) e;
  Some ((s, Add (startOfNextDay s) (- Nanosecond)) :: rest).
Proof.
  intros Hday. rewrite splitDays_step. cbv zeta.
  assert (Hnext : unixNano (startOfNextDay s) ≤ unixNano e)
    by (pose proof (dayNumber_before_next s e); lia).
  destruct (endOfDay_fields s) as [Hn Ho].
  set (eod := Add (startOfNextDay s) (- Nanosecond)) in *.
  unfold After. destruct (Z.ltb_spec (unixNano e) (unixNano eod)); [lia|].
  unfold Equal. destruct (Z.eqb_spec (unixNano eod) (unixNano e)); [lia|done].
Qed.
Lemma splitDays_chain (k : nat) : ∀ s e fuel,
  zoneOffset e = zoneOffset s →
  unixNano s ≤ unixNano e →
  dayNumber (zoneOffset s) e - dayNumber (zoneOffset s) s = Z.of_nat k →
  (k < fuel)%nat →
  ∃ segs,
    splitDays fuel s e = Some segs
    ∧ fst <$> head segs = Some s
    ∧ snd <$> last segs = Some e
    ∧ Forall (withinDay (zoneOffset s)) segs
    ∧ abutting segs.
Proof.
  induction k as [|k IH]; intros s e [|fuel] Hz Hle Hday Hfuel; try lia.
  - exists [(s, e)]. split; [apply splitDays_last; [done | lia]|].
    split_and!; try done.
    apply Forall_singleton. unfold withinDay. cbn [fst snd].
    split_and!; try done.
    apply Time_Date_dayNumber; [done | lia].
  - destruct (startOfNextDay_after s) as (Hlt & Hnext & Heod).
    destruct (endOfDay_fields s) as [Hn Ho].
    assert (Hnle : unixNano (startOfNextDay s) ≤ unixNano e)
      by (pose proof (dayNumber_before_next s e); lia).
    assert (Hzn : zoneOffset (startOfNextDay s) = zoneOffset s) by done.
    destruct (IH (startOfNextDay s) e fuel)
      as (segs & Hrun & Hhd & Hlast & Hall & Hab);
      rewrite ?Hzn; try lia; try done.
    exists ((s, Add (startOfNextDay s) (- Nanosecond)) :: segs).
    rewrite splitDays_more by lia. rewrite Hrun. simpl.
    destruct segs as [|next segs]; [done|]. simpl in Hhd.
    injection Hhd as Hhd.
    split_and!; try done.
    + apply Forall_cons. split; [|done].
      unfold withinDay. cbn [fst snd]. split_and!; try done; try lia.
      apply Time_Date_dayNumber; [done | lia].
    + rewrite Hhd. unfold startOfNextDay, Nanosecond. simpl. lia.
    + rewrite Hhd. apply startOfNextDay_midnight.
Qed.



Lemma splitFuel_enough s e :
  unixNano s ≤ unixNano e →
  dayNumber (zoneOffset s) e - dayNumber (zoneOffset s) s
  = Z.of_nat (Z.to_nat (dayNumber (zoneOffset s) e
                         - dayNumber (zoneOffset s) s)).
Proof.
  intros Hle.
  assert (dayNumber (zoneOffset s) s ≤ dayNumber (zoneOffset s) e)
    by (unfold dayNumber, Second; lia_div).
  lia.
Qed.






End DaySplitter.

(** ** Timestamps in the log: [Format] and [Parse] with [time.RFC3339] *)

Section Timestamps.
Import GoInt GoTime Props.

Lemma append_cons c (s t : string) : String c s +:+ t = String c (s +:+ t).
Proof. done. Qed.
Lemma append_nil (t : string) : "" +:+ t = t.
Proof. done. Qed.
Lemma append_nil_r (t : string) : t +:+ "" = t.
Proof. induction t as [|c t IH]; [done|]. by rewrite append_cons, IH. Qed.
Lemma append_assoc (s1 s2 s3 : string) : (s1 +:+ s2) +:+ s3 = s1 +:+ s2 +:+ s3.
Proof. induction s1 as [|c s1 IH]; [done|]. by rewrite !append_cons, IH. Qed.

Lemma digitChar_spec n :
  0 ≤ n ≤ 9 → isDigit (digitChar n) = true ∧ digitVal (digitChar n) = n.
Proof.
  intros Hn.
  assert (n = 0 ∨ n = 1 ∨ n = 2 ∨ n = 3 ∨ n = 4 ∨ n = 5 ∨ n = 6 ∨ n = 7
          ∨ n = 8 ∨ n = 9) as Hc by lia.
  destruct Hc as [->|[->|[->|[->|[->|[->|[->|[->|[->| ->]]]]]]]]]; by vm_compute.
Qed.

Lemma numDigitsFuel_le fuel : ∀ u k, 0 ≤ u < 10 ^ Z.of_nat k → (1 ≤ k)%nat → (numDigitsFuel fuel u ≤ k)%nat.
Proof.
  induction fuel as [|fuel IH]; intros u k Hu Hk; simpl; [done|].
  destruct (Z.ltb_spec u 10); [done|].
  destruct k as [|k]; [lia|].
  assert (Hp : 10 ^ Z.of_nat (S k) = 10 * 10 ^ Z.of_nat k)
    by (rewrite Nat2Z.inj_succ, Z.pow_succ_r; lia).
  rewrite Hp in Hu.
  destruct k as [|k]; [simpl in Hu; lia|].
  apply le_n_S, IH; [|lia].
  set (p := 10 ^ Z.of_nat (S k)) in *. lia_div.
Qed.

Lemma appendInt_2 x : 0 ≤ x < 100 → appendInt x 2 = twoDigits x.
Proof.
  intros Hx. unfold appendInt.
  destruct (Z.ltb_spec x 0); [lia|]. rewrite Z.abs_eq by lia.
  pose proof (numDigitsFuel_le (Z.to_nat (Z.log2 x)) x 2 ltac:(simpl; lia) ltac:(lia)).
  unfold numDigits. rewrite Nat.max_l by done.
  simpl. rewrite append_nil. unfold twoDigits. f_equal. f_equal. lia_div.
Qed.

Lemma appendInt_4 x : 0 ≤ x < 10000 → appendInt x 4 = fourDigits x.
Proof.
  intros Hx. unfold appendInt.
  destruct (Z.ltb_spec x 0); [lia|]. rewrite Z.abs_eq by lia.
  pose proof (numDigitsFuel_le (Z.to_nat (Z.log2 x)) x 4 ltac:(simpl; lia) ltac:(lia)).
  unfold numDigits. rewrite Nat.max_l by done.
  simpl. rewrite append_nil. unfold fourDigits, twoDigits.
  rewrite !append_cons, append_nil.
  f_equal; [f_equal; lia_div|]. f_equal; [f_equal; lia_div|].
  f_equal; [f_equal; lia_div|]. f_equal. f_equal. lia_div.
Qed.

Lemma getnum2_twoDigits x rest : 0 ≤ x < 100 → getnum2 (twoDigits x +:+ rest) = Some (x, rest).
Proof.
  intros Hx. unfold twoDigits. rewrite !append_cons, append_nil. simpl.
  destruct (digitChar_spec (x / 10)) as [-> ->]; [lia_div|].
  destruct (digitChar_spec (x mod 10)) as [-> ->]; [lia_div|].
  simpl. do 2 f_equal. lia_div.
Qed.

Lemma getnum4_fourDigits x rest : 0 ≤ x < 10000 → getnum4 (fourDigits x +:+ rest) = Some (x, rest).
Proof.
  intros Hx. unfold getnum4, fourDigits. rewrite append_assoc.
  rewrite getnum2_twoDigits by lia_div. cbn [mbind option_bind].
  rewrite getnum2_twoDigits by lia_div. cbn [mbind option_bind].
  do 2 f_equal. lia_div.
Qed.

Lemma skip_cons c rest : skip c (String c rest) = Some rest.
Proof. unfold skip. by rewrite Ascii.eqb_refl. Qed.

Lemma formatZone_zoneText off :
  off mod 60 = 0 → -86400 < off < 86400 → formatZone off = zoneText off.
Proof.
  intros Hm Hr. unfold formatZone, zoneText.
  assert (Hq : Z.quot off 60 = off / 60)
    by (Z.to_euclidean_division_equations; lia).
  rewrite Hq.
  destruct (Z.eqb_spec (off / 60) 0) as [H0|H0];
    destruct (Z.eqb_spec off 0) as [H1|H1]; try done; try lia_div.
  replace (off / 60 <? 0) with (off <? 0)
    by (destruct (Z.ltb_spec off 0), (Z.ltb_spec (off / 60) 0); try done; lia_div).
  rewrite !appendInt_2 by lia_div.
  replace (Z.abs (off / 60) / 60) with (Z.abs off / 3600) by lia_div.
  replace (Z.abs (off / 60) mod 60) with (Z.abs off / 60 mod 60) by lia_div.
  by destruct (off <? 0).
Qed.

Lemma parseNanoseconds_zoneText off :
  parseNanoseconds (zoneText off) = (0, zoneText off).
Proof.
  unfold zoneText. destruct (off =? 0); [done|].
  unfold twoDigits. rewrite !append_cons. by destruct (off <? 0).
Qed.

Lemma parseZone_zoneText off :
  off mod 60 = 0 → -86400 < off < 86400 →
  parseZone (zoneText off) = Some (off, "").
Proof.
  intros Hm Hr. unfold zoneText.
  destruct (Z.eqb_spec off 0) as [->|Hne]; [done|].
  unfold parseZone.
  assert (Hsign : ∀ rest, 
    (if Ascii.eqb (if off <? 0 then "-"%char else "+"%char) "Z" then Some (0, rest) else
     sign ← (if Ascii.eqb (if off <? 0 then "-"%char else "+"%char) "+" then Some 1
                  else if Ascii.eqb (if off <? 0 then "-"%char else "+"%char) "-" then Some (-1) else None);
          '(hr, rest) ← getnum2 rest;
          rest ← skip ":" rest;
          '(mm, rest) ← getnum2 rest;
          if (hr <=? 24) && (mm <=? 60)
          then Some (sign * ((hr * 60 + mm) * 60), rest) else None)
    = '(hr, rest) ← getnum2 rest;
          rest ← skip ":" rest;
          '(mm, rest) ← getnum2 rest;
          if (hr <=? 24) && (mm <=? 60)
          then Some ((if off <? 0 then -1 else 1) * ((hr * 60 + mm) * 60), rest) else None).
  { intros rest. by destruct (off <? 0). }
  rewrite Hsign. clear Hsign.
  rewrite getnum2_twoDigits by lia_div. cbn [mbind option_bind].
  rewrite append_cons, append_nil, skip_cons. cbn [mbind option_bind].
  rewrite <- (append_nil_r (twoDigits _)), getnum2_twoDigits by lia_div.
  cbn [mbind option_bind].
  destruct (Z.leb_spec (Z.abs off / 3600) 24); [|lia_div].
  destruct (Z.leb_spec (Z.abs off / 60 mod 60) 60); [|lia_div].
  cbn [andb]. do 2 f_equal.
  destruct (Z.ltb_spec off 0); lia_div.
Qed.

Lemma daysIn_le m y : daysIn m y ≤ 31.
Proof. unfold daysIn. repeat case_match; lia. Qed.

(** C6 (timestamps in the log), as amended.  The layout [time.RFC3339] has
    whole seconds only: for a time whose year, in its location, has four
    digits and whose zone offset is a whole number of minutes within a day,
    parsing the formatted text yields the same location and the instant
    rounded down to the second, which is the instant itself exactly when it
    has no fraction of a second. *)
Theorem C6_timestamp_round_trip (t : Time) :
  0 ≤ (Time_Date t).1.1 ≤ 9999 →
  zoneOffset t mod 60 = 0 →
  -86400 < zoneOffset t < 86400 →
  Parse_RFC3339 (Format_RFC3339 t)
  = Some (mkTime (unixNano t / Second * Second) (zoneOffset t)).
Proof.
  intros Hy Hm60 Hoff.
  unfold Format_RFC3339, Format_date, Clock.
  destruct (Time_Date t) as [[y m] d] eqn:Hd. simpl in Hy.
  unfold Time_Date in Hd.
  apply civilFromDays_spec in Hd as (Hm & Hday & Hback).
  pose proof (daysIn_le m y) as H31.
  set (s := localSec t mod 86400).
  assert (Hs : 0 ≤ s < 86400) by (subst s; lia_div).
  rewrite appendInt_4 by lia.
  rewrite !appendInt_2 by lia_div.
  rewrite formatZone_zoneText by done.
  rewrite !append_assoc, !append_cons, !append_nil.
  unfold Parse_RFC3339.
  rewrite getnum4_fourDigits by lia. cbn [mbind option_bind].
  rewrite skip_cons. cbn [mbind option_bind].
  rewrite getnum2_twoDigits by lia. cbn [mbind option_bind].
  rewrite skip_cons. cbn [mbind option_bind].
  rewrite getnum2_twoDigits by lia. cbn [mbind option_bind].
  rewrite skip_cons. cbn [mbind option_bind].
  rewrite getnum2_twoDigits by lia_div. cbn [mbind option_bind].
  rewrite skip_cons. cbn [mbind option_bind].
  rewrite getnum2_twoDigits by lia_div. cbn [mbind option_bind].
  rewrite skip_cons. cbn [mbind option_bind].
  rewrite getnum2_twoDigits by lia_div. cbn [mbind option_bind].
  rewrite parseNanoseconds_zoneText.
  rewrite parseZone_zoneText by done. cbn [mbind option_bind].
  rewrite Date_unixNano by done. rewrite Hback.
  assert (Hchk : String.eqb "" "" && (1 <=? m) && (m <=? 12) && (s / 3600 <? 24)
     && (s mod 3600 / 60 <? 60) && (s mod 60 <? 60) && (1 <=? d)
     && (d <=? daysIn m y) = true).
  { repeat (apply andb_true_intro; split); try done;
      try (apply Z.leb_le; lia); apply Z.ltb_lt; lia_div. }
  rewrite Hchk. do 2 f_equal.
  subst s. unfold localSec, Second. lia_div.
Qed.

(** Witness of C6: 2024-01-02T10:04:05.25-05:00. *)
Lemma C6_timestamp_round_trip_witness :
  (0 ≤ (Time_Date (mkTime 1704207845250000000 (-18000))).1.1 ≤ 9999
   ∧ -18000 mod 60 = 0 ∧ -86400 < -18000 < 86400)
  ∧ Parse_RFC3339 (Format_RFC3339 (mkTime 1704207845250000000 (-18000)))
    = Some (mkTime (1704207845250000000 / Second * Second) (-18000)).
Proof.
  split; [by vm_compute|].
  apply (C6_timestamp_round_trip (mkTime 1704207845250000000 (-18000)));
    by vm_compute.
Defined.

(** C6 as stated fails: the end of a day that the splitter writes,
    2024-01-01T23:59:59.999999999Z, is printed without its fraction and read
    back as another instant. *)
Lemma C6_fraction_lost :
  Format_RFC3339 (mkTime 1704153599999999999 0) = "2024-01-01T23:59:59Z"
  ∧ Parse_RFC3339 (Format_RFC3339 (mkTime 1704153599999999999 0))
    = Some (mkTime 1704153599000000000 0)
  ∧ ¬ (∃ t', Parse_RFC3339 (Format_RFC3339 (mkTime 1704153599999999999 0))
             = Some t'
             ∧ unixNano t' = unixNano (mkTime 1704153599999999999 0)).
Proof.
  assert (Hp : Parse_RFC3339 (Format_RFC3339 (mkTime 1704153599999999999 0))
               = Some (mkTime 1704153599000000000 0)) by (by vm_compute).
  split; [by vm_compute|]. split; [exact Hp|].
  intros (t' & Ht' & Heq). rewrite Hp in Ht'. injection Ht' as <-.
  simpl in Heq. lia.
Qed.
End Timestamps.

(** ** The log writer *)

Section LogWriter.
Import GoTime Log Props.

(** The loop of [logToCSV] always reaches its [break] within the fuel that
    [logToCSV] gives it, also when the interval runs backwards. *)
Lemma splitDays_total s e :
  zoneOffset e = zoneOffset s →
  ∃ seg segs, splitDays (splitFuel s e) s e = Some (seg :: segs).
Proof.
  intros Hz. destruct (Z.le_gt_cases (unixNano s) (unixNano e)) as [Hle|Hgt].
  - destruct (splitDays_chain _ s e (splitFuel s e) Hz Hle
                (splitFuel_enough s e Hle))
      as ([|seg segs] & Hrun & Hhd & _); [unfold splitFuel; lia | done |].
    by exists seg, segs.
  - exists (s, e), []. unfold splitFuel. apply splitDays_last; [done|].
    unfold dayNumber, Second. lia_div.
Qed.

Lemma length_header n : 0 ≤ n → Z.of_nat (length (header n)) = 2 + n.
Proof.
  intros Hn. unfold header.
  rewrite length_app, length_fmap, length_seqZ. simpl. lia.
Qed.

Lemma length_mkRecord titles maxTitles seg :
  Z.of_nat (length (mkRecord titles maxTitles seg))
  = 2 + Z.max maxTitles (Z.of_nat (length titles)).
Proof.
  unfold mkRecord. rewrite length_app, length_replicate. simpl. lia.
Qed.

Lemma maxTitlesOf_max titles file :
  maxTitlesOf titles file
  = match file with
    | [] => Z.of_nat (length titles)
    | _ => Z.max (headerTitleCount file) (Z.of_nat (length titles))
    end.
Proof.
  unfold maxTitlesOf, headerTitleCount. destruct file as [|headers file]; [done|].
  case_match; lia.
Qed.

(** C7 (row width after an append), as amended.  [logToCSV] returns; it
    leaves the records of the log in place, writes a header of
    [2 + len(titles)] fields when the log was empty, and then at least one
    record; the header of the log is the old one when there was one; and
    every record written has exactly [2 + max N (len titles)] fields, [N]
    being the number of title columns of the header: the records are padded
    to the header when the chain is no longer than [N], and carry the whole
    chain, hence more fields than the header, when it is longer.  So when
    the chain is no longer than [N] and every data row had [2 + N] fields
    before the append, every data row has [2 + N] fields after it. *)
Theorem C7_append_row_width (m : model) (file : list (list string)) :
  ∃ rows,
    let file' :=
      file ++ match file with
              | [] => [header (Z.of_nat (length (titles m)))]
              | _ => []
              end ++ rows in
    let N := headerTitleCount file' in
    logToCSV m file = Some file'
    ∧ rows ≠ []
    ∧ (file ≠ [] → N = headerTitleCount file)
    ∧ (file = [] → N = Z.of_nat (length (titles m)))
    ∧ Forall (λ row, Z.of_nat (length row)
                     = 2 + Z.max N (Z.of_nat (length (titles m)))) rows
    ∧ (Z.of_nat (length (titles m)) ≤ N →
       Forall (λ row, Z.of_nat (length row) = 2 + N) (tail file) →
       Forall (λ row, Z.of_nat (length row) = 2 + N) (tail file')).
Proof.
  destruct (splitDays_total (startTime m) (Add (startTime m) (elapsed m)))
    as (seg & segs & Hrun); [done|].
  exists (mkRecord (titles m) (maxTitlesOf (titles m) file) <$> seg :: segs).
  cbv zeta. unfold logToCSV. rewrite Hrun. cbn [mbind option_bind].
  rewrite maxTitlesOf_max.
  set (width (N : Z) (row : list string) :=
         Z.of_nat (length row) = 2 + Z.max N (Z.of_nat (length (titles m)))).
  assert (Hrows : ∀ N, Forall (width N)
            (mkRecord (titles m) (Z.max N (Z.of_nat (length (titles m))))
               <$> seg :: segs)).
  { intros N. apply Forall_fmap, Forall_forall. intros sg _.
    unfold compose, width. rewrite length_mkRecord. lia. }
  destruct file as [|headers file].
  - assert (HN : ∀ rows, headerTitleCount
                   ([] ++ [header (Z.of_nat (length (titles m)))] ++ rows)
                 = Z.of_nat (length (titles m))).
    { intros rows. cbn [app headerTitleCount]. rewrite length_header; lia. }
    rewrite HN.
    specialize (Hrows (Z.of_nat (length (titles m)))).
    rewrite Z.max_id in Hrows.
    split_and!; try done.
    intros _ _. cbn [app tail].
    eapply Forall_impl; [exact Hrows|]. unfold width. intros row. lia.
  - cbn [app headerTitleCount tail].
    specialize (Hrows (Z.of_nat (length headers) - 2)).
    split_and!; try done.
    intros Hfit Hold. apply Forall_app. split; [done|].
    eapply Forall_impl; [exact Hrows|]. unfold width. intros row. lia.
Qed.

(** C7 as stated fails: a chain of two titles appended to a log whose header
    declares one title column is written with four fields, one more than the
    three of the header. *)
Lemma C7_row_wider_than_header :
  logToCSV (mkModel "talogo.csv" ["A"; "B"] (mkTime 1704189600000000000 0)
              (3600 * Second) false true)
           [["start_time"; "end_time"; "title1"];
            ["2024-01-01T10:00:00Z"; "2024-01-01T11:00:00Z"; "A"]]
  = Some [["start_time"; "end_time"; "title1"];
          ["2024-01-01T10:00:00Z"; "2024-01-01T11:00:00Z"; "A"];
          ["2024-01-02T10:00:00Z"; "2024-01-02T11:00:00Z"; "A"; "B"]]
  ∧ length ["2024-01-02T10:00:00Z"; "2024-01-02T11:00:00Z"; "A"; "B"]
    ≠ length ["start_time"; "end_time"; "title1"].
Proof. split; [by vm_compute | simpl; lia]. Qed.
End LogWriter.

(** ** The aggregator *)

Section Aggregator.
Import GoInt GoTime Summary Props.

Lemma wrap64_add_l x y : wrap64 (wrap64 x + y) = wrap64 (x + y).
Proof.
  unfold wrap64.
  replace ((x + 2 ^ 63) mod 2 ^ 64 - 2 ^ 63 + y + 2 ^ 63)
    with ((x + 2 ^ 63) mod 2 ^ 64 + y) by lia.
  rewrite Zplus_mod_idemp_l. do 2 f_equal. lia.
Qed.

Lemma add64_comm_r x a b : add64 (add64 x a) b = add64 (add64 x b) a.
Proof. unfold add64. rewrite !wrap64_add_l. f_equal. lia. Qed.

(** The two steps of the loop body on the map of the day are one insertion. *)
Lemma processRecord_dailyTasks i record st :
  dailyTasks (processRecord (S i) record st) = addRecord record (dailyTasks st).
Proof.
  unfold processRecord, addRecord.
  destruct (decide (S i = 0%nat)); [done|].
  destruct (decide (length record < 3)%nat); [done|].
  destruct (Parse_RFC3339 (record !!! 0%nat)) as [startTime|]; [|done].
  destruct (Atoi (record !!! 2%nat)) as [secs|]; [|done].
  cbn [dailyTasks].
  destruct (dailyTasks st !! Format_date startTime) as [current|] eqn:Hcur.
  - by rewrite (lookup_total_correct _ _ _ Hcur).
  - by rewrite lookup_total_insert_eq, insert_insert_eq.
Qed.

Lemma processRecord_skipped i record st :
  skipped record →
  ∃ msg, processRecord (S i) record st = warn msg st.
Proof.
  unfold processRecord, skipped. intros Hskip.
  destruct (decide (S i = 0%nat)); [done|].
  destruct (decide (length record < 3)%nat); [by eexists|].
  destruct (Parse_RFC3339 (record !!! 0%nat)) as [startTime|]; [|by eexists].
  destruct (Atoi (record !!! 2%nat)) as [secs|]; [|by eexists].
  by destruct Hskip as [?|[?|?]].
Qed.

Lemma processRecord_stderr_valid i record st :
  ¬ skipped record → stderr (processRecord (S i) record st) = stderr st.
Proof.
  unfold processRecord, skipped. intros Hok.
  destruct (decide (S i = 0%nat)); [done|].
  destruct (decide (length record < 3)%nat); [tauto|].
  destruct (Parse_RFC3339 (record !!! 0%nat)) as [startTime|]; [|tauto].
  destruct (Atoi (record !!! 2%nat)) as [secs|]; [done | tauto].
Qed.

Lemma addRecord_skipped record daily :
  skipped record → addRecord record daily = daily.
Proof.
  unfold addRecord, skipped. intros Hskip.
  destruct (decide (length record < 3)%nat); [done|].
  destruct (Parse_RFC3339 (record !!! 0%nat)) as [startTime|]; [|done].
  destruct (Atoi (record !!! 2%nat)) as [secs|]; [|done].
  by destruct Hskip as [?|[?|?]].
Qed.

(** The forests after the loop are a fold of [addRecord] over the data
    rows, whatever their line numbers. *)
Lemma recordLoop_dailyTasks rows : ∀ i st,
  dailyTasks (recordLoop (S i) rows st)
  = foldl (λ daily record, addRecord record daily) (dailyTasks st) rows.
Proof.
  induction rows as [|record rows IH]; intros i st; [done|].
  cbn [recordLoop foldl]. by rewrite IH, processRecord_dailyTasks.
Qed.

Lemma aggregate_dailyTasks header rows :
  dailyTasks (aggregate (header :: rows))
  = foldl (λ daily record, addRecord record daily) ∅ rows.
Proof.
  unfold aggregate. cbn [recordLoop].
  by rewrite recordLoop_dailyTasks.
Qed.

Lemma recordLoop_stderr rows : ∀ i st,
  length (stderr (recordLoop (S i) rows st))
  = (length (stderr st) + length (filter skipped rows))%nat.
Proof.
  induction rows as [|record rows IH]; intros i st; [simpl; lia|].
  cbn [recordLoop]. rewrite IH.
  destruct (decide (skipped record)) as [Hs|Hs].
  - rewrite filter_cons_True by done.
    destruct (processRecord_skipped i record st Hs) as [msg ->].
    unfold warn. cbn [stderr length]. rewrite length_app. simpl. lia.
  - rewrite filter_cons_False by done.
    by rewrite processRecord_stderr_valid.
Qed.
Lemma processRecord_valid i record st :
  ¬ skipped record →
  ∃ startTime secs,
    Parse_RFC3339 (record !!! 0%nat) = Some startTime
    ∧ Atoi (record !!! 2%nat) = Some secs
    ∧ processRecord (S i) record st
      = mkState
          (<[Format_date startTime :=
               addTitles (drop 3 record) (mul64 secs Second)
                 (default ∅ (dailyTasks st !! Format_date startTime))]>
             (dailyTasks st))
          (stderr st).
Proof.
  intros Hok.
  pose proof (processRecord_dailyTasks i record st) as Hd.
  pose proof (processRecord_stderr_valid i record st Hok) as He.
  unfold addRecord, skipped in *.
  destruct (decide (length record < 3)%nat); [tauto|].
  destruct (Parse_RFC3339 (record !!! 0%nat)) as [startTime|]; [|tauto].
  destruct (Atoi (record !!! 2%nat)) as [secs|]; [|tauto].
  exists startTime, secs. split_and!; try done.
  destruct (processRecord (S i) record st). simpl in *. congruence.
Qed.




(** *** One row in one forest *)

Lemma addTitles_cons taskName rest duration current :
  taskName ≠ "" →
  addTitles (taskName :: rest) duration current
  = let node := default (mkTaskNode taskName 0 ∅ 0) (current !! taskName) in
    <[taskName :=
        mkTaskNode (Name node) (add64 (Duration node) duration)
          (addTitles rest duration (Children node))
          (add64 (TotalTime node) duration)]> current.
Proof. intros Hne. cbn [addTitles]. by destruct (decide (taskName = "")). Qed.

Lemma addTitles_chainOf fields : ∀ duration current,
  addTitles fields duration current
  = addTitles (chainOf fields) duration current.
Proof.
  induction fields as [|taskName rest IH]; intros duration current; [done|].
  cbn [chainOf]. destruct (decide (taskName = "")) as [->|Hne]; [done|].
  rewrite !addTitles_cons by done. cbv zeta. by rewrite IH.
Qed.

Lemma chainOf_app_empty pre post : chainOf (pre ++ "" :: post) = chainOf pre.
Proof.
  induction pre as [|taskName pre IH]; [done|].
  cbn [app chainOf]. by rewrite IH.
Qed.

Lemma nodeAt_empty path : nodeAt path ∅ = None.
Proof. by destruct path. Qed.

(** The node that [addTitles] meets under a name, new when the name is. *)
Lemma nodeAt_under name path (current : gmap string TaskNode) :
  nodeAt (name :: path) current
  = match path with
    | [] => current !! name
    | _ => nodeAt path
             (Children (default (mkTaskNode name 0 ∅ 0) (current !! name)))
    end.
Proof.
  cbn [nodeAt]. destruct (current !! name) as [node|]; simpl;
    destruct path; try done.
Qed.

(** What [addTitles] does to the node at a path: on the chain of the row
    the node exists afterwards and both its counters have grown by the
    duration; off the chain nothing has changed. *)
Lemma addTitles_nodeAt fields : ∀ duration current name path,
  (name :: path `prefix_of` chainOf fields →
   ∃ node,
     nodeAt (name :: path) (addTitles fields duration current) = Some node
     ∧ Duration node = add64 (durationAt (name :: path) current) duration
     ∧ TotalTime node = add64 (totalAt (name :: path) current) duration)
  ∧ (¬ name :: path `prefix_of` chainOf fields →
     nodeAt (name :: path) (addTitles fields duration current)
     = nodeAt (name :: path) current).
Proof.
  induction fields as [|taskName rest IH]; intros duration current name path.
  { split; [intros H; by apply prefix_nil_not in H | done]. }
  cbn [chainOf]. destruct (decide (taskName = "")) as [->|Hne].
  { split; [intros H; by apply prefix_nil_not in H | done]. }
  rewrite addTitles_cons by done. cbv zeta.
  set (node0 := default (mkTaskNode taskName 0 ∅ 0) (current !! taskName)).
  destruct (decide (name = taskName)) as [->|Hname].
  - unfold durationAt, totalAt.
    rewrite (nodeAt_under taskName path current).
    rewrite (nodeAt_under taskName path (<[taskName:=_]> current)).
    rewrite lookup_insert_eq. cbn [default Children]. fold node0.
    destruct path as [|name' path].
    + split; [|intros H; exfalso; apply H, prefix_cons, prefix_nil].
      intros _. eexists. split; [done|]. cbn [Duration TotalTime].
      subst node0. by destruct (current !! taskName).
    + destruct (IH duration (Children node0) name' path) as [Hon Hoff].
      split.
      * intros Hpre. apply prefix_cons_inv_2 in Hpre. exact (Hon Hpre).
      * intros Hpre. apply Hoff. intros H. by apply Hpre, prefix_cons.
  - split; [intros H; by apply prefix_cons_inv_1 in H|].
    intros _. cbn [nodeAt]. by rewrite lookup_insert_ne.
Qed.

Lemma processRecord_forest i record st startTime :
  ¬ skipped record →
  Parse_RFC3339 (record !!! 0%nat) = Some startTime →
  ∃ secs,
    Atoi (record !!! 2%nat) = Some secs
    ∧ default ∅ (dailyTasks (processRecord (S i) record st)
                  !! Format_date startTime)
      = addTitles (drop 3 record) (mul64 secs Second)
          (default ∅ (dailyTasks st !! Format_date startTime)).
Proof.
  intros Hok Hparse.
  destruct (processRecord_valid i record st Hok)
    as (startTime' & secs & Hparse' & Hatoi & ->).
  assert (startTime' = startTime) as -> by congruence.
  exists secs. split; [done|]. cbn [dailyTasks].
  by rewrite lookup_insert_eq.
Qed.

(** C1 (own and total duration), as amended.  A row that is not skipped
    adds its duration to both counters, [Duration] and [TotalTime], of every
    node on its title chain, the deepest and its ancestors alike, in the
    forest of its date, creating the nodes that are missing, and leaves
    every other node of that forest as it was.  For the day with one hour on
    A, B and two hours on A, C: A has three hours in both counters, B one
    hour in both, C two hours in both. *)
Theorem C1_chain_durations (i : nat) (record : list string) (st : state)
    (name : string) (path : list string) :
  (¬ skipped record →
   ∃ startTime secs,
     Parse_RFC3339 (record !!! 0%nat) = Some startTime
     ∧ Atoi (record !!! 2%nat) = Some secs
     ∧ let date := Format_date startTime in
       let before := default ∅ (dailyTasks st !! date) in
       let after :=
         default ∅ (dailyTasks (processRecord (S i) record st) !! date) in
       let duration := mul64 secs Second in
       (name :: path `prefix_of` chainOf (drop 3 record) →
        ∃ node,
          nodeAt (name :: path) after = Some node
          ∧ Duration node = add64 (durationAt (name :: path) before) duration
          ∧ TotalTime node = add64 (totalAt (name :: path) before) duration)
       ∧ (¬ name :: path `prefix_of` chainOf (drop 3 record) →
          nodeAt (name :: path) after = nodeAt (name :: path) before))
  ∧ (let forest := dailyTasks (aggregate exampleDay) !!! "2024-01-01" in
     totalAt ["A"] forest = 3 * 3600 * Second
     ∧ durationAt ["A"] forest = 3 * 3600 * Second
     ∧ totalAt ["A"; "B"] forest = 3600 * Second
     ∧ durationAt ["A"; "B"] forest = 3600 * Second
     ∧ totalAt ["A"; "C"] forest = 2 * 3600 * Second
     ∧ durationAt ["A"; "C"] forest = 2 * 3600 * Second).
Proof.
  split; [|by vm_compute].
  intros Hok.
  destruct (processRecord_valid i record st Hok)
    as (startTime & secs & Hparse & Hatoi & _).
  exists startTime, secs. split_and!; try done. cbv zeta.
  destruct (processRecord_forest i record st startTime Hok Hparse)
    as (secs' & Hatoi' & ->).
  assert (secs' = secs) as -> by congruence.
  apply addTitles_nodeAt.
Qed.

(** C1 as stated fails on its own example: A, which ends no chain, has an
    own duration of three hours, not of none. *)
Lemma C1_parent_own_duration :
  durationAt ["A"] (dailyTasks (aggregate exampleDay) !!! "2024-01-01")
  = 3 * 3600 * Second
  ∧ durationAt ["A"] (dailyTasks (aggregate exampleDay) !!! "2024-01-01") ≠ 0.
Proof. by vm_compute. Qed.

(** *** Both counters of every node are equal *)

Lemma balanced_empty : balanced ∅.
Proof. intros path node. by rewrite nodeAt_empty. Qed.

Lemma addTitles_balanced fields duration current :
  balanced current → balanced (addTitles fields duration current).
Proof.
  intros Hbal [|name path] node Hnode; [done|].
  assert (Hbefore : durationAt (name :: path) current
                    = totalAt (name :: path) current).
  { unfold durationAt, totalAt.
    destruct (nodeAt (name :: path) current) as [node0|] eqn:H0; [|done].
    simpl. by apply (Hbal (name :: path)). }
  destruct (addTitles_nodeAt fields duration current name path) as [Hon Hoff].
  destruct (decide (name :: path `prefix_of` chainOf fields)) as [Hpre|Hpre].
  - destruct (Hon Hpre) as (node' & Hnode' & HD & HT).
    assert (node' = node) as -> by congruence. congruence.
  - rewrite (Hoff Hpre) in Hnode. by apply (Hbal (name :: path)).
Qed.

Lemma addRecord_balanced record daily :
  (∀ date tasks, daily !! date = Some tasks → balanced tasks) →
  ∀ date tasks, addRecord record daily !! date = Some tasks → balanced tasks.
Proof.
  intros Hbal date tasks. unfold addRecord.
  destruct (decide (length record < 3)%nat); [apply Hbal|].
  destruct (Parse_RFC3339 (record !!! 0%nat)) as [startTime|]; [|apply Hbal].
  destruct (Atoi (record !!! 2%nat)) as [secs|]; [|apply Hbal].
  destruct (decide (Format_date startTime = date)) as [<-|Hne].
  - rewrite lookup_insert_eq. intros [= <-]. apply addTitles_balanced.
    destruct (daily !! Format_date startTime) as [current|] eqn:Hcur;
      [by apply (Hbal _ _ Hcur) | apply balanced_empty].
  - rewrite lookup_insert_ne by done. apply Hbal.
Qed.

Lemma foldl_addRecord_balanced rows : ∀ daily,
  (∀ date tasks, daily !! date = Some tasks → balanced tasks) →
  ∀ date tasks,
    foldl (λ daily record, addRecord record daily) daily rows !! date
    = Some tasks → balanced tasks.
Proof.
  induction rows as [|record rows IH]; intros daily Hbal; [done|].
  cbn [foldl]. by apply IH, addRecord_balanced.
Qed.

(** C10 (the two counters agree).  In the forests that [generateSummary]
    builds from any log, every node has [Duration] equal to [TotalTime]. *)
Theorem C10_duration_equals_total (records : list (list string))
    (date : string) (tasks : gmap string TaskNode) (path : list string)
    (node : TaskNode) :
  dailyTasks (aggregate records) !! date = Some tasks →
  nodeAt path tasks = Some node →
  Duration node = TotalTime node.
Proof.
  intros Hdate Hnode. destruct records as [|header rows]; [done|].
  rewrite aggregate_dailyTasks in Hdate.
  eapply (foldl_addRecord_balanced rows ∅); [|exact Hdate|exact Hnode].
  intros date' tasks'. by rewrite lookup_empty.
Qed.

(** Witness of C10: the node of A, which has the child B and the child C, in
    the additivity example. *)
Lemma C10_duration_equals_total_witness :
  (dailyTasks (aggregate exampleDay) !! "2024-01-01"
   = Some (dailyTasks (aggregate exampleDay) !!! "2024-01-01")
   ∧ nodeAt ["A"] (dailyTasks (aggregate exampleDay) !!! "2024-01-01")
     = Some (default inhabitant
               (nodeAt ["A"]
                  (dailyTasks (aggregate exampleDay) !!! "2024-01-01"))))
  ∧ Duration (default inhabitant
                (nodeAt ["A"]
                   (dailyTasks (aggregate exampleDay) !!! "2024-01-01")))
    = TotalTime (default inhabitant
                   (nodeAt ["A"]
                      (dailyTasks (aggregate exampleDay) !!! "2024-01-01"))).
Proof.
  split; [by vm_compute|].
  apply (C10_duration_equals_total exampleDay "2024-01-01"
           (dailyTasks (aggregate exampleDay) !!! "2024-01-01") ["A"]);
    by vm_compute.
Defined.

(** *** The first empty title ends the chain *)

(** C9 (an empty title ends the chain).  The title fields after the first
    empty one add nothing, empty or not: the inner loop does to a forest
    what it does without them, and so does the loop body to its state, for
    a row with its three leading fields. *)
Theorem C9_empty_title_ends_chain (i : nat) (start finish secs : string)
    (pre post : list string) (st : state) (duration : Z)
    (current : gmap string TaskNode) :
  addTitles (pre ++ "" :: post) duration current
  = addTitles pre duration current
  ∧ processRecord (S i) (start :: finish :: secs :: pre ++ "" :: post) st
    = processRecord (S i) (start :: finish :: secs :: pre) st.
Proof.
  assert (Hadd : ∀ d c, addTitles (pre ++ "" :: post) d c = addTitles pre d c).
  { intros d c.
    by rewrite addTitles_chainOf, chainOf_app_empty, <- addTitles_chainOf. }
  split; [apply Hadd|].
  unfold processRecord.
  destruct (decide (S i = 0%nat)); [done|].
  cbn [length].
  destruct (decide (S (S (S (length (pre ++ "" :: post)))) < 3)%nat); [lia|].
  destruct (decide (S (S (S (length pre))) < 3)%nat); [lia|].
  change ((start :: finish :: secs :: pre ++ "" :: post) !!! 0%nat) with start.
  change ((start :: finish :: secs :: pre) !!! 0%nat) with start.
  change ((start :: finish :: secs :: pre ++ "" :: post) !!! 2%nat) with secs.
  change ((start :: finish :: secs :: pre) !!! 2%nat) with secs.
  destruct (Parse_RFC3339 start) as [startTime|]; [|done].
  destruct (Atoi secs) as [n'|]; [|done].
  cbn [drop]. by rewrite Hadd.
Qed.

(** *** The order of the rows does not matter *)

Lemma addTitles_comm fa : ∀ fb da db current,
  addTitles fa da (addTitles fb db current)
  = addTitles fb db (addTitles fa da current).
Proof.
  induction fa as [|a ra IH]; intros fb da db current; [done|].
  destruct (decide (a = "")) as [->|Ha]; [done|].
  destruct fb as [|b rb]; [done|].
  destruct (decide (b = "")) as [->|Hb]; [done|].
  rewrite (addTitles_cons b rb db current) by done.
  rewrite (addTitles_cons a ra da current) by done.
  rewrite !addTitles_cons by done. cbv zeta.
  destruct (decide (a = b)) as [->|Hab].
  - rewrite !lookup_insert_eq. cbn [default Name Duration Children TotalTime].
    rewrite !insert_insert_eq. f_equal.
    f_equal; [apply add64_comm_r | apply IH | apply add64_comm_r].
  - rewrite (lookup_insert_ne _ b a) by done.
    rewrite (lookup_insert_ne _ a b) by done.
    by apply insert_insert_ne.
Qed.

Lemma addRecord_comm r1 r2 daily :
  addRecord r1 (addRecord r2 daily) = addRecord r2 (addRecord r1 daily).
Proof.
  unfold addRecord.
  destruct (decide (length r1 < 3)%nat); [done|].
  destruct (decide (length r2 < 3)%nat); [done|].
  destruct (Parse_RFC3339 (r1 !!! 0%nat)) as [t1|]; [|done].
  destruct (Atoi (r1 !!! 2%nat)) as [n1|]; [|done].
  destruct (Parse_RFC3339 (r2 !!! 0%nat)) as [t2|]; [|done].
  destruct (Atoi (r2 !!! 2%nat)) as [n2|]; [|done].
  destruct (decide (Format_date t1 = Format_date t2)) as [Heq|Hne].
  - rewrite <- Heq, !lookup_insert_eq. cbn [default].
    rewrite !insert_insert_eq. f_equal. apply addTitles_comm.
  - rewrite !lookup_insert_ne by done. by apply insert_insert_ne.
Qed.

Lemma foldl_addRecord_Permutation rows rows' :
  rows ≡ₚ rows' → ∀ daily,
  foldl (λ daily record, addRecord record daily) daily rows
  = foldl (λ daily record, addRecord record daily) daily rows'.
Proof.
  induction 1 as [|r l l' _ IH|r1 r2 l|l l' l'' _ IH1 _ IH2]; intros daily.
  - done.
  - cbn [foldl]. apply IH.
  - cbn [foldl]. by rewrite addRecord_comm.
  - by rewrite IH1.
Qed.

(** The keys come out of the sort in one order, from whichever order the
    [range] loop collected them in. *)
Lemma sortedKeys_any_order {A} (m : gmap string A) (keys : list string) :
  keys ≡ₚ (map_to_list m).*1 → merge_sort String.le keys = sortedKeys m.
Proof.
  intros Hperm. unfold sortedKeys.
  apply (Sorted_unique String.le).
  - apply Sorted_merge_sort; apply _.
  - apply Sorted_merge_sort; apply _.
  - by rewrite !merge_sort_Permutation.
Qed.

(** C8 (report determinism).  Two logs with the same header and the same
    data rows in any two orders give the same forests and the same report
    on standard output, whatever the floating-point operations are; and the
    sorted keys that the report walks through do not depend on the order in
    which [range] yields the keys of a map. *)
Theorem C8_order_independence `{Float64} (header : list string)
    (rows rows' : list (list string)) :
  rows ≡ₚ rows' →
  dailyTasks (aggregate (header :: rows))
  = dailyTasks (aggregate (header :: rows'))
  ∧ (generateSummary (header :: rows)).1
    = (generateSummary (header :: rows')).1
  ∧ ∀ (tasks : gmap string TaskNode) (keys : list string),
      keys ≡ₚ (map_to_list tasks).*1 →
      merge_sort String.le keys = sortedKeys tasks.
Proof.
  intros Hperm.
  assert (Hforest : dailyTasks (aggregate (header :: rows))
                    = dailyTasks (aggregate (header :: rows'))).
  { rewrite !aggregate_dailyTasks. by apply foldl_addRecord_Permutation. }
  split_and!; [done| |apply @sortedKeys_any_order].
  unfold generateSummary. cbn [length].
  rewrite (Permutation_length Hperm).
  destruct (decide (S (length rows') ≤ 1)%nat); [done|].
  cbn [fst]. by rewrite Hforest.
Qed.

(** Witness of C8: the two rows of the additivity example, swapped. *)
Lemma C8_order_independence_witness :
  [["2024-01-01T09:00:00Z"; "2024-01-01T10:00:00Z"; "3600"; "A"; "B"];
   ["2024-01-01T10:00:00Z"; "2024-01-01T12:00:00Z"; "7200"; "A"; "C"]]
  ≡ₚ [["2024-01-01T10:00:00Z"; "2024-01-01T12:00:00Z"; "7200"; "A"; "C"];
      ["2024-01-01T09:00:00Z"; "2024-01-01T10:00:00Z"; "3600"; "A"; "B"]]
  ∧ dailyTasks (aggregate exampleDay)
    = dailyTasks
        (aggregate
           [["start_time"; "end_time"; "duration_seconds"; "title1"; "title2"];
            ["2024-01-01T10:00:00Z"; "2024-01-01T12:00:00Z"; "7200"; "A"; "C"];
            ["2024-01-01T09:00:00Z"; "2024-01-01T10:00:00Z"; "3600"; "A"; "B"]]).
Proof.
  split; [apply perm_swap|].
  apply (@C8_order_independence exactNanos
           ["start_time"; "end_time"; "duration_seconds"; "title1"; "title2"]
           [["2024-01-01T09:00:00Z"; "2024-01-01T10:00:00Z"; "3600"; "A"; "B"];
            ["2024-01-01T10:00:00Z"; "2024-01-01T12:00:00Z"; "7200"; "A"; "C"]]
           [["2024-01-01T10:00:00Z"; "2024-01-01T12:00:00Z"; "7200"; "A"; "C"];
            ["2024-01-01T09:00:00Z"; "2024-01-01T10:00:00Z"; "3600"; "A"; "B"]]).
  apply perm_swap.
Defined.

(** *** The duration comes from the third field *)





(** The two sub-commands do not share a layout.  A row that [logToCSV]
    writes has its first title where the aggregator reads the duration: the
    hour tracked on A, B is skipped as an invalid duration and counted
    nowhere. *)
Remark log_row_read_by_summary :
  Log.logToCSV
    (Log.mkModel "talogo.csv" ["A"; "B"] (mkTime 1704103200000000000 0)
       (3600 * Second) false true) []
  = Some [["start_time"; "end_time"; "title1"; "title2"];
          ["2024-01-01T10:00:00Z"; "2024-01-01T11:00:00Z"; "A"; "B"]]
  ∧ aggregate [["start_time"; "end_time"; "title1"; "title2"];
               ["2024-01-01T10:00:00Z"; "2024-01-01T11:00:00Z"; "A"; "B"]]
    = mkState ∅ ["Skipping record on line 2: invalid duration (A)" +:+ nl].
Proof. by vm_compute. Qed.

End Aggregator.

(* ===================================================================== *)
(** * Further properties of the code *)
(* ===================================================================== *)

(** ** The log writer: rows, titles, header *)

Section LogWriterMore.
Import GoInt GoTime Log Props MoreProps.


(** What [logToCSV] returns, with the segments of its loop. *)
Lemma logToCSV_segments (m : model) (file : list (list string)) :
  ∃ seg segs,
    splitDays (splitFuel (startTime m) (Add (startTime m) (elapsed m)))
      (startTime m) (Add (startTime m) (elapsed m)) = Some (seg :: segs)
    ∧ logToCSV m file
      = Some (file
              ++ match file with
                 | [] => [header (maxTitlesOf (titles m) file)]
                 | _ => []
                 end
              ++ (mkRecord (titles m) (maxTitlesOf (titles m) file)
                    <$> seg :: segs)).
Proof.
  destruct (splitDays_total (startTime m) (Add (startTime m) (elapsed m)))
    as (seg & segs & Hrun); [done|].
  exists seg, segs. split; [done|].
  unfold logToCSV. by rewrite Hrun.
Qed.







(** *** The titles of a row *)

Lemma drop_mkRecord titles maxTitles seg :
  drop 2 (mkRecord titles maxTitles seg)
  = titles
    ++ replicate (Z.to_nat (maxTitles - Z.of_nat (length titles))) "".
Proof.
  unfold mkRecord. cbn [app length drop]. rewrite drop_0. do 3 f_equal. lia.
Qed.

Lemma chainOf_padded fields k :
  chainOf (fields ++ replicate k "") = chainOf fields.
Proof.
  induction fields as [|t fields IH]; [by destruct k|].
  cbn [app chainOf]. by rewrite IH.
Qed.

Lemma chainOf_no_empty fields :
  Forall (λ t, t ≠ "") fields → chainOf fields = fields.
Proof.
  induction 1 as [|t fields Ht _ IH]; [done|].
  cbn [chainOf]. destruct (decide (t = "")); [done|]. by rewrite IH.
Qed.

(** Every row that [logToCSV] writes carries, after its two timestamps, the
    titles of the session in their order, followed by empty fields only; so
    when no title is empty, reading the title fields of the row up to the
    first empty one gives the titles back. *)
Theorem logToCSV_titles (m : model) (file : list (list string)) :
  ∃ rows,
    logToCSV m file
    = Some (file
            ++ match file with
               | [] => [header (maxTitlesOf (titles m) file)]
               | _ => []
               end
            ++ rows)
    ∧ Forall (λ row, ∃ k, drop 2 row = titles m ++ replicate k "") rows
    ∧ (Forall (λ t, t ≠ "") (titles m) →
       Forall (λ row, chainOf (drop 2 row) = titles m) rows).
Proof.
  destruct (logToCSV_segments m file) as (seg & segs & Hrun & Hlog).
  eexists. split; [exact Hlog|]. split.
  - apply Forall_fmap, Forall_forall. intros sg _. unfold compose.
    rewrite drop_mkRecord. by eexists.
  - intros Hne. apply Forall_fmap, Forall_forall. intros sg _.
    unfold compose.
    by rewrite drop_mkRecord, chainOf_padded, chainOf_no_empty.
Qed.

(** *** Appending again and again *)

Lemma logToCSV_extends (m : model) (file : list (list string)) :
  ∃ file',
    logToCSV m file = Some file'
    ∧ file `prefix_of` file'
    ∧ file' ≠ []
    ∧ (file ≠ [] → head file' = head file)
    ∧ (file = [] →
       head file' = Some (header (Z.of_nat (length (titles m))))).
Proof.
  destruct (logToCSV_segments m file) as (seg & segs & Hrun & Hlog).
  eexists. split; [exact Hlog|].
  split_and!.
  - by eexists.
  - destruct file; [done | done].
  - by destruct file.
  - by intros ->.
Qed.


(** *** The rows of [logToCSV] under the aggregator *)

Lemma foldl_addRecord_skipped rows : ∀ daily,
  Forall skipped rows →
  foldl (λ daily record, Props.addRecord record daily) daily rows = daily.
Proof.
  induction rows as [|record rows IH]; intros daily Hall; [done|].
  apply Forall_cons in Hall as [Hs Hall]. cbn [foldl].
  rewrite addRecord_skipped by done. by apply IH.
Qed.

Lemma filter_skipped_all rows :
  Forall skipped rows → filter skipped rows = rows.
Proof.
  induction 1 as [|record rows Hs _ IH]; [done|].
  by rewrite filter_cons_True, IH.
Qed.

Lemma aggregate_stderr header rows :
  length (Summary.stderr (Summary.aggregate (header :: rows)))
  = length (filter skipped rows).
Proof.
  unfold Summary.aggregate. cbn [Summary.recordLoop].
  by rewrite recordLoop_stderr.
Qed.

Lemma mkRecord_skipped titles maxTitles seg :
  Atoi (default "" (head titles)) = None →
  skipped (mkRecord titles maxTitles seg).
Proof.
  intros Hatoi. unfold skipped.
  destruct (decide (length (mkRecord titles maxTitles seg) < 3)%nat)
    as [|Hlen]; [by left|].
  right. right.
  assert (Hthird : mkRecord titles maxTitles seg !!! 2%nat
                   = default "" (head titles)).
  { revert Hlen. unfold mkRecord. cbn [app length].
    destruct titles as [|t titles]; [|done].
    cbn [app length]. rewrite length_replicate.
    destruct (Z.to_nat _) as [|k]; [simpl; lia | done]. }
  by rewrite Hthird.
Qed.

(** The summary does not read the rows of [logToCSV]: unless the first title
    of the session is an integer, every row that the call writes is skipped
    by the record loop, and a log that the call has created gives no forest
    at all and one diagnostic for each of its rows. *)
Theorem logToCSV_rows_skipped (m : model) (file : list (list string)) :
  Atoi (default "" (head (titles m))) = None →
  ∃ rows,
    logToCSV m file
    = Some (file
            ++ match file with
               | [] => [header (maxTitlesOf (titles m) file)]
               | _ => []
               end
            ++ rows)
    ∧ Forall skipped rows
    ∧ (file = [] →
       ∀ file', logToCSV m file = Some file' →
         Summary.dailyTasks (Summary.aggregate file') = ∅
         ∧ length (Summary.stderr (Summary.aggregate file')) = length rows).
Proof.
  intros Hatoi.
  destruct (logToCSV_segments m file) as (seg & segs & Hrun & Hlog).
  eexists. split; [exact Hlog|].
  assert (Hall : Forall skipped
            (mkRecord (titles m) (maxTitlesOf (titles m) file) <$> seg :: segs)).
  { apply Forall_fmap, Forall_forall. intros sg _.
    by apply mkRecord_skipped. }
  split; [done|].
  intros -> file' Hfile'. rewrite Hlog in Hfile'. injection Hfile' as <-.
  cbn [app]. rewrite aggregate_dailyTasks.
  rewrite foldl_addRecord_skipped by done. split; [done|].
  by rewrite aggregate_stderr, filter_skipped_all.
Qed.

(** Witness: a session on the titles A, B. *)
Lemma logToCSV_rows_skipped_witness :
  Atoi (default "" (head ["A"; "B"])) = None
  ∧ ∃ rows,
      logToCSV (mkModel "talogo.csv" ["A"; "B"]
                  (mkTime 1704103200000000000 0) (3600 * Second) false true)
        [] = Some ([header 2] ++ rows)
      ∧ Forall skipped rows.
Proof.
  split; [by vm_compute|].
  destruct (logToCSV_rows_skipped
              (mkModel "talogo.csv" ["A"; "B"]
                 (mkTime 1704103200000000000 0) (3600 * Second) false true)
              []) as (rows & Hlog & Hall & _); [by vm_compute|].
  exists rows. split; [exact Hlog | exact Hall].
Defined.

End LogWriterMore.

(** ** The aggregator: what the forests hold *)

Section AggregatorMore.
Import GoInt GoTime Summary Props MoreProps.

Lemma record_cases record :
  skipped record
  ∨ ∃ startTime secs,
      Parse_RFC3339 (record !!! 0%nat) = Some startTime
      ∧ Atoi (record !!! 2%nat) = Some secs
      ∧ ¬ skipped record
      ∧ ∀ daily,
          addRecord record daily
          = <[Format_date startTime :=
                addTitles (drop 3 record) (mul64 secs Second)
                  (default ∅ (daily !! Format_date startTime))]> daily.
Proof.
  unfold skipped, addRecord.
  destruct (decide (length record < 3)%nat) as [Hlen|Hlen]; [tauto|].
  destruct (Parse_RFC3339 (record !!! 0%nat)) as [startTime|]; [|tauto].
  destruct (Atoi (record !!! 2%nat)) as [secs|]; [|tauto].
  right. exists startTime, secs. split_and!; try done.
  by intros [?|[?|?]].
Qed.

(** One row in the forest of one date. *)
Lemma addRecord_forestOf date record daily :
  forestOf date (addRecord record daily)
  = if decide (filedUnder date record)
    then addTitles (drop 3 record) (rowNanos record) (forestOf date daily)
    else forestOf date daily.
Proof.
  destruct (record_cases record)
    as [Hs|(startTime & secs & Hp & Ha & Hok & Hadd)].
  { rewrite addRecord_skipped by done.
    rewrite decide_False; [done|]. by intros [? _]. }
  rewrite Hadd. unfold forestOf, rowNanos. rewrite Ha. cbn [from_option].
  destruct (decide (Format_date startTime = date)) as [<-|Hne].
  - rewrite lookup_insert_eq, decide_True; [done|].
    split; [done|]. unfold rowDate. by rewrite Hp.
  - rewrite lookup_insert_ne by done. rewrite decide_False; [done|].
    intros [_ Hd]. unfold rowDate in Hd. rewrite Hp in Hd.
    cbn [fmap option_fmap option_map] in Hd. congruence.
Qed.

Lemma addRecord_dates date record daily :
  is_Some (addRecord record daily !! date)
  ↔ is_Some (daily !! date) ∨ filedUnder date record.
Proof.
  destruct (record_cases record)
    as [Hs|(startTime & secs & Hp & Ha & Hok & Hadd)].
  { rewrite addRecord_skipped by done. unfold filedUnder. tauto. }
  rewrite Hadd. unfold filedUnder, rowDate. rewrite Hp.
  cbn [fmap option_fmap option_map].
  destruct (decide (Format_date startTime = date)) as [<-|Hne].
  - rewrite lookup_insert_eq. split; [|by eexists]. intros _. by right.
  - rewrite lookup_insert_ne by done. split; [tauto|].
    intros [?|[_ [= ?]]]; done.
Qed.

Lemma addRecord_nodeAt date name path record daily :
  (through date (name :: path) record →
   ∃ node,
     nodeAt (name :: path) (forestOf date (addRecord record daily)) = Some node
     ∧ Duration node
       = add64 (durationAt (name :: path) (forestOf date daily))
           (rowNanos record)
     ∧ TotalTime node
       = add64 (totalAt (name :: path) (forestOf date daily))
           (rowNanos record))
  ∧ (¬ through date (name :: path) record →
     nodeAt (name :: path) (forestOf date (addRecord record daily))
     = nodeAt (name :: path) (forestOf date daily)).
Proof.
  rewrite addRecord_forestOf. unfold through.
  destruct (decide (filedUnder date record)) as [Hfiled|Hfiled]; [|tauto].
  destruct (addTitles_nodeAt (drop 3 record) (rowNanos record)
              (forestOf date daily) name path) as [Hon Hoff].
  split; [intros [_ Hpre]; by apply Hon | intros Hno; apply Hoff; tauto].
Qed.

Lemma sum_app (l k : list Z) :
  foldr Z.add 0 (l ++ k) = foldr Z.add 0 l + foldr Z.add 0 k.
Proof. induction l as [|x l IH]; simpl; lia. Qed.

Lemma nanosThrough_snoc date path rows record :
  nanosThrough date path (rows ++ [record])
  = nanosThrough date path rows
    + (if decide (through date path record) then rowNanos record else 0).
Proof.
  unfold nanosThrough. rewrite filter_app, fmap_app, sum_app. f_equal.
  destruct (decide (through date path record)).
  - rewrite filter_cons_True by done. simpl. lia.
  - by rewrite filter_cons_False.
Qed.

(** After the record loop, both counters of the node at a path hold the sum,
    in 64-bit arithmetic, of the durations of the rows that were aggregated
    under the date and whose title chain passes through the path; they are
    zero where no such row exists. *)
Theorem node_totals (header : list string) (rows : list (list string))
    (date name : string) (path : list string) :
  totalAt (name :: path)
    (forestOf date (dailyTasks (aggregate (header :: rows))))
  = wrap64 (nanosThrough date (name :: path) rows)
  ∧ durationAt (name :: path)
      (forestOf date (dailyTasks (aggregate (header :: rows))))
    = wrap64 (nanosThrough date (name :: path) rows).
Proof.
  rewrite aggregate_dailyTasks.
  induction rows as [|record rows IH] using rev_ind; [by vm_compute|].
  rewrite foldl_snoc, nanosThrough_snoc.
  destruct IH as [IHt IHd].
  destruct (addRecord_nodeAt date name path record
              (foldl (λ daily record, addRecord record daily) ∅ rows))
    as [Hon Hoff].
  destruct (decide (through date (name :: path) record)) as [Hthr|Hthr].
  - destruct (Hon Hthr) as (node & Hnode & HD & HT).
    unfold totalAt at 1, durationAt at 1. rewrite Hnode. simpl.
    rewrite HD, HT, IHt, IHd. unfold add64. by rewrite wrap64_add_l.
  - unfold totalAt at 1, durationAt at 1. rewrite (Hoff Hthr).
    fold (totalAt (name :: path)
            (forestOf date
               (foldl (λ daily record, addRecord record daily) ∅ rows))).
    fold (durationAt (name :: path)
            (forestOf date
               (foldl (λ daily record, addRecord record daily) ∅ rows))).
    by rewrite IHt, IHd, Z.add_0_r.
Qed.

(** A node exists at a path in the forest of a date exactly when some row
    was aggregated under that date with a title chain through the path: the
    loop creates no other node and leaves none out. *)
Theorem node_exists_iff (header : list string) (rows : list (list string))
    (date name : string) (path : list string) :
  is_Some (nodeAt (name :: path)
             (forestOf date (dailyTasks (aggregate (header :: rows)))))
  ↔ Exists (through date (name :: path)) rows.
Proof.
  rewrite aggregate_dailyTasks.
  induction rows as [|record rows IH] using rev_ind.
  { rewrite Exists_nil. split; [|done]. by intros [? ?]. }
  rewrite foldl_snoc, Exists_app, Exists_cons, Exists_nil.
  destruct (addRecord_nodeAt date name path record
              (foldl (λ daily record, addRecord record daily) ∅ rows))
    as [Hon Hoff].
  destruct (decide (through date (name :: path) record)) as [Hthr|Hthr].
  - destruct (Hon Hthr) as (node & Hnode & _). rewrite Hnode.
    split; [tauto | by eexists].
  - rewrite (Hoff Hthr), IH. tauto.
Qed.

(** A date has a forest, and so a block in the report, exactly when some row
    was aggregated under it, also a row without any title. *)
Theorem dates_iff (header : list string) (rows : list (list string))
    (date : string) :
  is_Some (dailyTasks (aggregate (header :: rows)) !! date)
  ↔ Exists (filedUnder date) rows.
Proof.
  rewrite aggregate_dailyTasks.
  induction rows as [|record rows IH] using rev_ind.
  { cbn [foldl]. rewrite Exists_nil, lookup_empty. split; [|done].
    by intros [? ?]. }
  rewrite foldl_snoc, Exists_app, Exists_cons, Exists_nil, addRecord_dates, IH.
  tauto.
Qed.
(** *** Names *)

Lemma named_empty : named ∅.
Proof. intros path node. by rewrite nodeAt_empty. Qed.

Lemma named_children name (current : gmap string TaskNode) :
  named current →
  named (Children (default (mkTaskNode name 0 ∅ 0) (current !! name))).
Proof.
  intros Hn [|x xs] node Hnode; [done|].
  destruct (current !! name) as [node0|] eqn:Hcur;
    [|by rewrite nodeAt_empty in Hnode].
  cbn [default] in Hnode.
  assert (Hfull : nodeAt (name :: x :: xs) current = Some node)
    by (by rewrite nodeAt_under, Hcur).
  apply Hn in Hfull. by rewrite last_cons_cons in Hfull.
Qed.

Lemma addTitles_named fields : ∀ duration current,
  named current → named (addTitles fields duration current).
Proof.
  induction fields as [|taskName rest IH]; intros duration current Hn; [done|].
  destruct (decide (taskName = "")) as [->|Hne]; [done|].
  rewrite addTitles_cons by done. cbv zeta.
  intros [|name path] node Hnode; [done|].
  destruct (decide (name = taskName)) as [->|Hname].
  - rewrite nodeAt_under, lookup_insert_eq in Hnode.
    cbn [default Children] in Hnode.
    destruct path as [|name' path].
    + injection Hnode as <-. cbn [Name last].
      destruct (current !! taskName) as [node0|] eqn:Hcur; [|done].
      cbn [default]. apply (Hn [taskName]). by rewrite nodeAt_under.
    + rewrite last_cons_cons.
      by apply (IH duration _ (named_children taskName current Hn)).
  - cbn [nodeAt] in Hnode. rewrite lookup_insert_ne in Hnode by done.
    by apply Hn.
Qed.

Lemma addRecord_named record daily :
  (∀ date tasks, daily !! date = Some tasks → named tasks) →
  ∀ date tasks, addRecord record daily !! date = Some tasks → named tasks.
Proof.
  intros Hall date tasks.
  destruct (record_cases record)
    as [Hs|(startTime & secs & _ & _ & _ & Hadd)].
  { rewrite addRecord_skipped by done. apply Hall. }
  rewrite Hadd.
  destruct (decide (Format_date startTime = date)) as [<-|Hne].
  - rewrite lookup_insert_eq. intros [= <-]. apply addTitles_named.
    destruct (daily !! Format_date startTime) as [current|] eqn:Hcur;
      [by apply (Hall _ _ Hcur) | apply named_empty].
  - rewrite lookup_insert_ne by done. apply Hall.
Qed.

(** In the forests built from any log, every node carries in [Name] the key
    under which its parent holds it, the last name of its path. *)
Theorem nodes_named (records : list (list string)) (date : string)
    (tasks : gmap string TaskNode) (path : list string) (node : TaskNode) :
  dailyTasks (aggregate records) !! date = Some tasks →
  nodeAt path tasks = Some node →
  last path = Some (Name node).
Proof.
  intros Hdate Hnode. destruct records as [|header rows]; [done|].
  rewrite aggregate_dailyTasks in Hdate.
  revert date tasks Hdate path node Hnode.
  induction rows as [|record rows IH] using rev_ind;
    intros date tasks Hdate; [done|].
  rewrite foldl_snoc in Hdate.
  by apply (addRecord_named record _ IH date tasks).
Qed.

(** Witness: the node of B under A in the additivity example. *)
Lemma nodes_named_witness :
  (dailyTasks (aggregate exampleDay) !! "2024-01-01"
   = Some (dailyTasks (aggregate exampleDay) !!! "2024-01-01")
   ∧ nodeAt ["A"; "B"] (dailyTasks (aggregate exampleDay) !!! "2024-01-01")
     = Some (default inhabitant
               (nodeAt ["A"; "B"]
                  (dailyTasks (aggregate exampleDay) !!! "2024-01-01"))))
  ∧ last ["A"; "B"]
    = Some (Name (default inhabitant
                    (nodeAt ["A"; "B"]
                       (dailyTasks (aggregate exampleDay) !!! "2024-01-01")))).
Proof.
  assert (Hhyp :
    dailyTasks (aggregate exampleDay) !! "2024-01-01"
    = Some (dailyTasks (aggregate exampleDay) !!! "2024-01-01")
    ∧ nodeAt ["A"; "B"] (dailyTasks (aggregate exampleDay) !!! "2024-01-01")
      = Some (default inhabitant
                (nodeAt ["A"; "B"]
                   (dailyTasks (aggregate exampleDay) !!! "2024-01-01"))))
    by (vm_compute; split; reflexivity).
  split; [exact Hhyp|]. destruct Hhyp as [Hdate Hnode].
  exact (nodes_named exampleDay "2024-01-01" _ ["A"; "B"] _ Hdate Hnode).
Defined.

(** *** Logs without a valid row *)




End AggregatorMore.

(** ** The earlier writer and the summary *)

Section MainLogSummary.
Import GoInt GoTime Summary Props MoreProps.

(** *** [strconv.Atoi] reads what [%d] prints *)

Lemma pretty_N_char_digit x :
  (x < 10)%N → isDigit (pretty_N_char x) = true
               ∧ digitVal (pretty_N_char x) = Z.of_N x.
Proof.
  intros Hx.
  assert (x = 0 ∨ x = 1 ∨ x = 2 ∨ x = 3 ∨ x = 4 ∨ x = 5 ∨ x = 6 ∨ x = 7
          ∨ x = 8 ∨ x = 9)%N as Hc by lia.
  destruct Hc as [->|[->|[->|[->|[->|[->|[->|[->|[->| ->]]]]]]]]]; by vm_compute.
Qed.

Lemma digitsVal_pretty_N_go x : ∀ s,
  digitsVal 0 (pretty_N_go x s) = digitsVal (Z.of_N x) s.
Proof.
  induction (N.lt_wf_0 x) as [x _ IH]. intros s.
  destruct (decide (0 < x)%N) as [Hpos|Hzero].
  - rewrite pretty_N_go_step by done.
    rewrite IH by (apply N.div_lt; lia).
    cbn [digitsVal].
    destruct (pretty_N_char_digit (x `mod` 10)%N) as [-> ->];
      [apply N.mod_lt; lia|].
    f_equal. rewrite (N.div_mod x 10) at 3 by lia. lia.
  - assert (x = 0%N) as -> by lia. by rewrite pretty_N_go_0.
Qed.

Lemma unsignedVal_pretty_pos (p : positive) :
  unsignedVal (pretty p) = Some (Z.pos p)
  ∧ ∃ c rest, pretty p = String c rest ∧ isDigit c = true.
Proof.
  assert (Hval : digitsVal 0 (pretty p) = Some (Z.pos p)).
  { unfold pretty, pretty_positive, pretty, pretty_N.
    rewrite decide_False by done. by rewrite digitsVal_pretty_N_go. }
  destruct (pretty p) as [|c rest] eqn:Hs; [by injection Hval|].
  split; [done|]. exists c, rest. split; [done|].
  cbn [digitsVal] in Hval. by destruct (isDigit c).
Qed.

Lemma Atoi_leading_digit c rest :
  isDigit c = true →
  Atoi (String c rest)
  = v ← unsignedVal (String c rest);
    if (- 2 ^ 63 <=? v) && (v <=? 2 ^ 63 - 1) then Some v else None.
Proof. by destruct c as [[] [] [] [] [] [] [] []]. Qed.

Lemma Atoi_pretty (z : Z) :
  - 2 ^ 63 ≤ z ≤ 2 ^ 63 - 1 → Atoi (pretty z) = Some z.
Proof.
  intros Hz. destruct z as [|p|p].
  - by vm_compute.
  - destruct (unsignedVal_pretty_pos p) as (Hval & c & rest & Hs & Hc).
    change (pretty (Z.pos p)) with (pretty p).
    rewrite Hs in Hval |- *. rewrite Atoi_leading_digit, Hval by done.
    cbn [mbind option_bind].
    destruct (Z.leb_spec (- 2 ^ 63) (Z.pos p)); [|lia].
    destruct (Z.leb_spec (Z.pos p) (2 ^ 63 - 1)); [done | lia].
  - destruct (unsignedVal_pretty_pos p) as (Hval & _).
    change (pretty (Z.neg p)) with (String "-" (pretty p)).
    unfold Atoi. rewrite Hval. cbn [fmap option_fmap option_map mbind option_bind].
    change (Z.opp (Z.pos p)) with (Z.neg p).
    destruct (Z.leb_spec (- 2 ^ 63) (Z.neg p)); [|lia].
    destruct (Z.leb_spec (Z.neg p) (2 ^ 63 - 1)); [done | lia].
Qed.

(** *** A timestamp read back *)

Lemma Parse_Format_RFC3339 (t : Time) :
  0 ≤ (Time_Date t).1.1 ≤ 9999 →
  zoneOffset t mod 60 = 0 →
  -86400 < zoneOffset t < 86400 →
  Parse_RFC3339 (Format_RFC3339 t)
  = Some (mkTime (unixNano t / Second * Second) (zoneOffset t)).
Proof.
  intros Hy Hm60 Hoff.
  unfold Format_RFC3339, Format_date, Clock.
  destruct (Time_Date t) as [[y m] d] eqn:Hd. simpl in Hy.
  unfold Time_Date in Hd.
  apply civilFromDays_spec in Hd as (Hm & Hday & Hback).
  pose proof (daysIn_le m y) as H31.
  set (s := localSec t mod 86400).
  assert (Hs : 0 ≤ s < 86400) by (subst s; lia_div).
  rewrite appendInt_4 by lia.
  rewrite !appendInt_2 by lia_div.
  rewrite formatZone_zoneText by done.
  rewrite !append_assoc, !append_cons, !append_nil.
  unfold Parse_RFC3339.
  rewrite getnum4_fourDigits by lia. cbn [mbind option_bind].
  rewrite skip_cons. cbn [mbind option_bind].
  rewrite getnum2_twoDigits by lia. cbn [mbind option_bind].
  rewrite skip_cons. cbn [mbind option_bind].
  rewrite getnum2_twoDigits by lia. cbn [mbind option_bind].
  rewrite skip_cons. cbn [mbind option_bind].
  rewrite getnum2_twoDigits by lia_div. cbn [mbind option_bind].
  rewrite skip_cons. cbn [mbind option_bind].
  rewrite getnum2_twoDigits by lia_div. cbn [mbind option_bind].
  rewrite skip_cons. cbn [mbind option_bind].
  rewrite getnum2_twoDigits by lia_div. cbn [mbind option_bind].
  rewrite parseNanoseconds_zoneText.
  rewrite parseZone_zoneText by done. cbn [mbind option_bind].
  rewrite Date_unixNano by done. rewrite Hback.
  assert (Hchk : String.eqb "" "" && (1 <=? m) && (m <=? 12) && (s / 3600 <? 24)
     && (s mod 3600 / 60 <? 60) && (s mod 60 <? 60) && (1 <=? d)
     && (d <=? daysIn m y) = true).
  { repeat (apply andb_true_intro; split); try done;
      try (apply Z.leb_le; lia); apply Z.ltb_lt; lia_div. }
  rewrite Hchk. do 2 f_equal.
  subst s. unfold localSec, Second. lia_div.
Qed.

Lemma Format_date_truncated (t : Time) :
  Format_date (mkTime (unixNano t / Second * Second) (zoneOffset t))
  = Format_date t.
Proof.
  unfold Format_date, Time_Date, localSec. cbn [unixNano zoneOffset].
  by rewrite Z.div_mul.
Qed.

(** *** One session, written and summarised *)

Lemma mainlog_record_fields (m : MainLog.model) (duration maxTitles : Z) :
  ∃ k,
    MainLog.mkRecord m duration maxTitles
    = Format_RFC3339 (MainLog.startTime m)
      :: Format_RFC3339 (Add (MainLog.startTime m) (MainLog.elapsed m))
      :: pretty duration :: MainLog.titles m ++ replicate k "".
Proof. unfold MainLog.mkRecord. by eexists. Qed.

Lemma mainlog_aggregate seconds (m : MainLog.model) (file : list (list string)) :
  dailyTasks (aggregate (MainLog.logToCSV seconds m file))
  = addRecord
      (MainLog.mkRecord m (seconds (MainLog.elapsed m))
         (MainLog.maxTitlesOf (MainLog.titles m) file))
      (dailyTasks (aggregate file))
  ∧ length (stderr (aggregate (MainLog.logToCSV seconds m file)))
    = (length (stderr (aggregate file))
       + length (filter skipped
                   [MainLog.mkRecord m (seconds (MainLog.elapsed m))
                      (MainLog.maxTitlesOf (MainLog.titles m) file)]))%nat.
Proof.
  unfold MainLog.logToCSV. destruct file as [|header rows].
  - assert (Hnil : aggregate [] = mkState ∅ []) by reflexivity.
    rewrite Hnil. cbn [app dailyTasks stderr length Nat.add].
    rewrite aggregate_dailyTasks, aggregate_stderr. cbn [foldl].
    split; reflexivity.
  - cbn [app]. rewrite !aggregate_dailyTasks, !aggregate_stderr.
    rewrite foldl_snoc, filter_app, length_app. split; reflexivity.
Qed.

(** A session written by the earlier [logToCSV], whose layout has the
    duration column, is read by the summary: when the year of the start has
    four digits, its zone offset is a whole number of minutes within a day
    and the seconds are an [int], the row is not skipped, it is filed under
    the local date of the start with the seconds of its duration column,
    and its chain is the titles up to the first empty one.  So, against the
    summary of the log before the call, the summary of the log after it has
    the seconds added to both counters of every node on the chain of the
    session, no other node of that date changed, and no new diagnostic. *)
Theorem mainlog_session_summarised (seconds : Z → Z) (m : MainLog.model)
    (file : list (list string)) (name : string) (path : list string) :
  0 ≤ (Time_Date (MainLog.startTime m)).1.1 ≤ 9999 →
  zoneOffset (MainLog.startTime m) mod 60 = 0 →
  -86400 < zoneOffset (MainLog.startTime m) < 86400 →
  - 2 ^ 63 ≤ seconds (MainLog.elapsed m) ≤ 2 ^ 63 - 1 →
  let row := MainLog.mkRecord m (seconds (MainLog.elapsed m))
               (MainLog.maxTitlesOf (MainLog.titles m) file) in
  let date := Format_date (MainLog.startTime m) in
  let nanos := mul64 (seconds (MainLog.elapsed m)) Second in
  let before := forestOf date (dailyTasks (aggregate file)) in
  let after :=
    forestOf date
      (dailyTasks (aggregate (MainLog.logToCSV seconds m file))) in
  filedUnder date row
  ∧ rowNanos row = nanos
  ∧ chainOf (drop 3 row) = chainOf (MainLog.titles m)
  ∧ (name :: path `prefix_of` chainOf (MainLog.titles m) →
     totalAt (name :: path) after = add64 (totalAt (name :: path) before) nanos
     ∧ durationAt (name :: path) after
       = add64 (durationAt (name :: path) before) nanos)
  ∧ (¬ name :: path `prefix_of` chainOf (MainLog.titles m) →
     nodeAt (name :: path) after = nodeAt (name :: path) before)
  ∧ length (stderr (aggregate (MainLog.logToCSV seconds m file)))
    = length (stderr (aggregate file)).
Proof.
  intros Hyear Hmin Hzone Hint. cbv zeta.
  set (row := MainLog.mkRecord m (seconds (MainLog.elapsed m))
                (MainLog.maxTitlesOf (MainLog.titles m) file)).
  destruct (mainlog_record_fields m (seconds (MainLog.elapsed m))
              (MainLog.maxTitlesOf (MainLog.titles m) file)) as [k Hrow].
  fold row in Hrow.
  assert (Hparse : Parse_RFC3339 (row !!! 0%nat)
                   = Some (mkTime (unixNano (MainLog.startTime m) / Second
                                   * Second)
                             (zoneOffset (MainLog.startTime m)))).
  { rewrite Hrow. by apply Parse_Format_RFC3339. }
  assert (Hatoi : Atoi (row !!! 2%nat) = Some (seconds (MainLog.elapsed m))).
  { rewrite Hrow. by apply Atoi_pretty. }
  assert (Hok : ¬ skipped row).
  { intros [Hlen|[Hp|Ha]]; [|congruence|congruence].
    rewrite Hrow in Hlen. simpl in Hlen. lia. }
  assert (Hfiled : filedUnder (Format_date (MainLog.startTime m)) row).
  { split; [done|]. unfold rowDate. rewrite Hparse.
    cbn [fmap option_fmap option_map]. by rewrite Format_date_truncated. }
  assert (Hnanos : rowNanos row
                   = mul64 (seconds (MainLog.elapsed m)) Second)
    by (unfold rowNanos; by rewrite Hatoi).
  assert (Hchain : chainOf (drop 3 row) = chainOf (MainLog.titles m))
    by (rewrite Hrow; cbn [drop]; apply chainOf_padded).
  destruct (mainlog_aggregate seconds m file) as [Hagg Herr].
  fold row in Hagg, Herr. rewrite Hagg.
  destruct (addRecord_nodeAt (Format_date (MainLog.startTime m)) name path
              row (dailyTasks (aggregate file))) as [Hon Hoff].
  unfold through in Hon, Hoff. rewrite Hchain, Hnanos in *.
  split_and!; try done.
  - intros Hpre. destruct (Hon (conj Hfiled Hpre)) as (node & Hnode & HD & HT).
    unfold totalAt at 1, durationAt at 1. by rewrite Hnode.
  - intros Hpre. apply Hoff. tauto.
  - rewrite Herr, filter_cons_False by done. simpl. lia.
Qed.

(** Witness: an hour on A, B from 2024-01-01T10:00:00Z, appended to a new
    log, with whole seconds for [int(d.Seconds())]. *)
Lemma mainlog_session_summarised_witness :
  (0 ≤ (Time_Date (mkTime 1704103200000000000 0)).1.1 ≤ 9999
   ∧ 0 mod 60 = 0 ∧ -86400 < 0 < 86400
   ∧ - 2 ^ 63 ≤ 3600 * Second / Second ≤ 2 ^ 63 - 1)
  ∧ filedUnder "2024-01-01"
      (MainLog.mkRecord
         (MainLog.mkModel ["A"; "B"] (mkTime 1704103200000000000 0)
            (3600 * Second) false true) 3600 2).
Proof.
  split; [by vm_compute|].
  by destruct (mainlog_session_summarised (λ d, d / Second)
                 (MainLog.mkModel ["A"; "B"] (mkTime 1704103200000000000 0)
                    (3600 * Second) false true) [] "A" ["B"]
                 ltac:(by vm_compute) ltac:(by vm_compute)
                 ltac:(by vm_compute) ltac:(by vm_compute))
    as (Hfiled & _).
Defined.
End MainLogSummary.

(** ** The update function of the timer *)

Section TimerUpdate.
Import GoTime Log LogUI Props.

Lemma run_cons since msg rest m file :
  run ((since, msg) :: rest) m file
  = run rest (Update since msg m file).1.1 (Update since msg m file).1.2.
Proof. cbn [run]. by destruct (Update since msg m file) as [[m' file'] cmd]. Qed.

(** One call of [Update]: the session is the same, the log has only grown
    at its end, and it has grown only on Ctrl+C. *)
Lemma Update_step since msg m file :
  titles (Update since msg m file).1.1 = titles m
  ∧ startTime (Update since msg m file).1.1 = startTime m
  ∧ logFile (Update since msg m file).1.1 = logFile m
  ∧ (elapsed (Update since msg m file).1.1 = elapsed m
     ∨ running m = true ∧ elapsed (Update since msg m file).1.1 = since)
  ∧ (running m = false → running (Update since msg m file).1.1 = false)
  ∧ file `prefix_of` (Update since msg m file).1.2
  ∧ (msg ≠ KeyMsg true → (Update since msg m file).1.2 = file).
Proof.
  destruct msg as [[|]| |]; cbn [Update fst snd].
  - destruct (logToCSV_extends
                (mkModel (logFile m) (titles m) (startTime m) (elapsed m)
                   false true) file) as (file' & -> & Hpre & _).
    split_and!; try done. by left.
  - split_and!; try done. by left.
  - destruct (running m) eqn:Hrun; cbn [fst snd titles startTime logFile
                                          elapsed running];
      split_and!; try done; first [by right | by left].
  - split_and!; try done. by left.
Qed.

(** Over any run of messages the model keeps its titles, its start and its
    file name; [elapsed] stays non-negative when it was and every reading
    of the clock is; the log only grows at its end; and it does not change
    at all unless a Ctrl+C is among the messages. *)
Theorem Update_run_invariant (inputs : list (Z * Msg)) (m : model)
    (file : list (list string)) :
  0 ≤ elapsed m →
  Forall (λ input, 0 ≤ input.1) inputs →
  0 ≤ elapsed (run inputs m file).1
  ∧ titles (run inputs m file).1 = titles m
  ∧ startTime (run inputs m file).1 = startTime m
  ∧ logFile (run inputs m file).1 = logFile m
  ∧ file `prefix_of` (run inputs m file).2
  ∧ (Forall (λ input, input.2 ≠ KeyMsg true) inputs →
     (run inputs m file).2 = file).
Proof.
  revert m file. induction inputs as [|[since msg] inputs IH];
    intros m file Hel Hall; [done|].
  apply Forall_cons in Hall as [Hsince Hall]. cbn [fst] in Hsince.
  rewrite run_cons.
  destruct (Update_step since msg m file)
    as (Ht & Hs & Hf & He & _ & Hpre & Hsame).
  destruct (IH (Update since msg m file).1.1 (Update since msg m file).1.2)
    as (IHel & IHt & IHs & IHf & IHpre & IHsame); [|done|].
  { destruct He as [->|[_ ->]]; done. }
  split_and!; try congruence.
  - by etrans.
  - intros Hno. apply Forall_cons in Hno as [Hmsg Hno]. cbn [snd] in Hmsg.
    rewrite (IHsame Hno). by apply Hsame.
Qed.

(** Witness: two ticks, a key, and Ctrl+C. *)
Lemma Update_run_invariant_witness :
  (0 ≤ 0
   ∧ Forall (λ input : Z * Msg, 0 ≤ input.1)
       [(1000000000, TickMsg); (2000000000, TickMsg);
        (2500000000, KeyMsg false); (2600000000, KeyMsg true)])
  ∧ 0 ≤ elapsed
          (run [(1000000000, TickMsg); (2000000000, TickMsg);
                (2500000000, KeyMsg false); (2600000000, KeyMsg true)]
             (mkModel "talogo.csv" ["A"] (mkTime 1704103200000000000 0) 0
                true false) []).1.
Proof.
  assert (Hall : Forall (λ input : Z * Msg, 0 ≤ input.1)
                   [(1000000000, TickMsg); (2000000000, TickMsg);
                    (2500000000, KeyMsg false); (2600000000, KeyMsg true)])
    by (repeat constructor; simpl; lia).
  split; [split; [lia | exact Hall]|].
  by destruct (Update_run_invariant
                 [(1000000000, TickMsg); (2000000000, TickMsg);
                  (2500000000, KeyMsg false); (2600000000, KeyMsg true)]
                 (mkModel "talogo.csv" ["A"] (mkTime 1704103200000000000 0) 0
                    true false) [] ltac:(simpl; lia) Hall) as (Hel & _).
Defined.

Lemma run_stopped inputs : ∀ m file,
  running m = false →
  elapsed (run inputs m file).1 = elapsed m
  ∧ running (run inputs m file).1 = false.
Proof.
  induction inputs as [|[since msg] inputs IH]; intros m file Hstop; [done|].
  rewrite run_cons.
  destruct (Update_step since msg m file)
    as (_ & _ & _ & He & Hrun & _).
  destruct (IH _ (Update since msg m file).1.2 (Hrun Hstop)) as [-> ->].
  split; [|done]. destruct He as [->|[Hr _]]; [done | congruence].
Qed.

(** Ctrl+C logs the interval up to the last tick handled, not up to the key:
    the rows it appends are those of [logToCSV] on the model as the ticks
    before it left it.  After it the timer is stopped, and whatever messages
    follow, ticks included, [elapsed] stays what it was. *)
Theorem Update_ctrlC_frozen (before after : list (Z * Msg)) (since : Z)
    (m : model) (file : list (list string)) :
  let m1 := (run before m file).1 in
  let file1 := (run before m file).2 in
  ∃ logged,
    logToCSV (mkModel (logFile m1) (titles m1) (startTime m1) (elapsed m1)
                false true) file1 = Some logged
    ∧ (Update since (KeyMsg true) m1 file1).1.2 = logged
    ∧ elapsed (run (before ++ (since, KeyMsg true) :: after) m file).1
      = elapsed m1
    ∧ running (run (before ++ (since, KeyMsg true) :: after) m file).1
      = false.
Proof.
  cbv zeta.
  assert (Happ : ∀ l1 l2 m0 file0,
            run (l1 ++ l2) m0 file0
            = run l2 (run l1 m0 file0).1 (run l1 m0 file0).2).
  { induction l1 as [|[s0 msg0] l1 IH]; intros l2 m0 file0; [done|].
    cbn [app]. by rewrite !run_cons, IH. }
  rewrite Happ, run_cons.
  set (m1 := (run before m file).1). set (file1 := (run before m file).2).
  destruct (logToCSV_extends
              (mkModel (logFile m1) (titles m1) (startTime m1) (elapsed m1)
                 false true) file1) as (logged & Hlog & _).
  exists logged. split; [done|].
  cbn [Update fst snd]. rewrite Hlog. cbn [default]. split; [done|].
  exact (run_stopped after
           (mkModel (logFile m1) (titles m1) (startTime m1) (elapsed m1)
              false true) _ eq_refl).
Qed.
End TimerUpdate.
